(** * Virtual Plant: the simulation engine and the two renderers

    A shallow embedding of [plant.js] (the first version of the page script,
    pixel renderer only) and of its later version (same simulation code,
    plus the seeded vines and the text renderer).

    Conventions of the embedding.
    - JavaScript numbers that hold quantities (growth, hydration, health,
      rates, hours) are exact rationals [Q]; comparisons and results are
      stated up to [Qeq].  The simulation step is modelled without the
      rounding of IEEE doubles; the status text of [render] (time to the
      next stage), where rounding decides what is shown, is computed in
      binary64 (module [B64]).
    - Instants are integers [Z]: every instant the script stores comes from
      [Date.now()], from [Date.now() + 1000*60*30] or is the literal [0].
    - [nowMs()] reads the wall clock.  A function that calls it takes the
      value read as an explicit argument, one argument per call, in call
      order.
    - 32-bit integer operators ([^], [<<], [>>>], [|0]) are written on [Z]
      with the wrap-around spelled out. *)

From Stdlib Require Import ZArith QArith Qminmax Qround Qabs Qpower.
From Stdlib Require Import List String Ascii Bool Lia Lqa DecimalString.
Import ListNotations.

Open Scope string_scope.
Open Scope list_scope.
Open Scope Q_scope.

(** ** Numbers *)

(** [a < b], [a > b], [a >= b] on quantities, as booleans. *)
Definition Qltb (a b : Q) : bool := negb (Qle_bool b a).
Definition Qgtb (a b : Q) : bool := Qltb b a.
Definition Qgeb (a b : Q) : bool := Qle_bool b a.

(** [function clamp(n, a, b){ return Math.max(a, Math.min(b, n)); }] *)
Definition clamp (n a b : Q) : Q := Qmax a (Qmin b n).

(** The same [clamp], at the call sites whose arguments are grid
    coordinates (integers). *)
Definition clampZ (n a b : Z) : Z := Z.max a (Z.min b n).

(** Decimal rendering of an integer inside a template literal. *)
Definition showZ (z : Z) : string := NilZero.string_of_int (Z.to_int z).

(** ** Data model *)

Record Stage := mkStage { name : string; need : Q }.

Definition STAGES : list Stage :=
  [ mkStage "Seed"   0;
    mkStage "Sprout" 15;
    mkStage "Stem"   45;
    mkStage "Leaves" 90;
    mkStage "Bushy"  150;
    mkStage "Flower" 230 ].

(** [STAGES[i]]; the script only indexes inside the table. *)
Definition stageAt (i : nat) : Stage := nth i STAGES (mkStage "" 0).

Definition BASE_GROWTH_PER_HOUR : Q := 6.

Record PlantState := mkPlant {
  createdAt : Z;
  lastTickAt : Z;
  growth : Q;
  hydration : Q;
  health : Q;
  lastActionAt : Z;
  sunlightBoostUntil : Z
}.

(** [newPlant()], with [t] the clock reading. *)
Definition newPlant (t : Z) : PlantState :=
  {| createdAt := t;
     lastTickAt := t;
     growth := 0;
     hydration := 70;
     health := 85;
     lastActionAt := t;
     sunlightBoostUntil := 0 |}.

(** ** Simulation engine *)

(** [stageFromGrowth]: the loop runs [i] over [0 .. STAGES.length-1] and
    overwrites [idx] at every row whose threshold is reached. *)
Definition stageFromGrowth (growth : Q) : nat :=
  fold_left
    (fun idx i => if Qgeb growth (need (stageAt i)) then i else idx)
    (seq 0 (List.length STAGES)) 0%nat.

Definition nextStageNeed (growth : Q) : Q :=
  let idx := stageFromGrowth growth in
  need (stageAt (Nat.min (idx + 1) (List.length STAGES - 1))).

(** The instantaneous growth rate; [tick] and [render] compute it with the
    same four lines. *)
Definition growthRate (t : Z) (state : PlantState) : Q :=
  let sunBoost := if (t <? sunlightBoostUntil state)%Z then 1.35 else 1.0 in
  let hydrationFactor := clamp (hydration state / 80) 0 1.2 in
  let healthFactor := clamp (health state / 85) 0 1.2 in
  BASE_GROWTH_PER_HOUR * hydrationFactor * healthFactor * sunBoost.

(** [tick(state, timeScale)]; [t] is the clock reading taken on entry.  The
    fields are assigned in source order, so the health line reads the
    hydration written just above it and the rate reads both new values. *)
Definition tick (t : Z) (state : PlantState) (timeScale : Q) : PlantState :=
  let dtMs := inject_Z (Z.max 0 (t - lastTickAt state)) * timeScale in
  let hours := dtMs / (1000 * 60 * 60) in
  let hydration1 := clamp (hydration state - hours * 8) 0 100 in
  let hydrationTarget := hydration1 in
  let delta := (hydrationTarget - 55) / 55 in
  let health1 := clamp (health state + hours * (delta * 10)) 0 100 in
  let sunBoost := if (t <? sunlightBoostUntil state)%Z then 1.35 else 1.0 in
  let hydrationFactor := clamp (hydration1 / 80) 0 1.2 in
  let healthFactor := clamp (health1 / 85) 0 1.2 in
  let rate := BASE_GROWTH_PER_HOUR * hydrationFactor * healthFactor * sunBoost in
  {| createdAt := createdAt state;
     lastTickAt := t;
     growth := Qmax 0 (growth state + hours * rate);
     hydration := hydration1;
     health := health1;
     lastActionAt := lastActionAt state;
     sunlightBoostUntil := sunlightBoostUntil state |}.

(** [doTick]: the scale is 60 when the fast-mode box is checked, else 1.
    Saving and rendering do not touch the state. *)
Definition doTick (fastChecked : bool) (t : Z) (state : PlantState) : PlantState :=
  let scale := if fastChecked then 60 else 1 in
  tick t state scale.

(** The click handler of the water button: two field updates, the action
    stamp [tAct], then [doTick] reading the clock again ([tTick]). *)
Definition onWater (fastChecked : bool) (tAct tTick : Z) (state : PlantState)
  : PlantState :=
  let state1 :=
    {| createdAt := createdAt state;
       lastTickAt := lastTickAt state;
       growth := growth state;
       hydration := clamp (hydration state + 25) 0 100;
       health := clamp (health state + 4) 0 100;
       lastActionAt := tAct;
       sunlightBoostUntil := sunlightBoostUntil state |} in
  doTick fastChecked tTick state1.

(** The click handler of the sunlight button. *)
Definition onSun (fastChecked : bool) (tBoost tAct tTick : Z) (state : PlantState)
  : PlantState :=
  let state1 :=
    {| createdAt := createdAt state;
       lastTickAt := lastTickAt state;
       growth := growth state;
       hydration := hydration state;
       health := clamp (health state + 2) 0 100;
       lastActionAt := tAct;
       sunlightBoostUntil := (tBoost + 1000 * 60 * 30)%Z |} in
  doTick fastChecked tTick state1.

(** The click handler of the reset button; [confirmed] is the answer to the
    confirmation dialog. *)
Definition onReset (confirmed : bool) (t : Z) (state : PlantState) : PlantState :=
  if confirmed then newPlant t else state.

(** ** Binary64 arithmetic

    What [render] shows as the time to the next stage depends on how each
    operation rounds, so that part is computed as the engine computes it:
    every operation gives the double nearest to the exact result, ties to
    even.  A double is kept as the rational it denotes.  Results beyond the
    largest double, which the engine turns into [Infinity], do not arise
    from states whose growth is at least 0. *)

Module B64.

(** The nearest integer, ties to even. *)
Definition rne (z : Q) : Z :=
  let f := Qfloor z in
  match Qcompare (z - inject_Z f) (1 # 2) with
  | Lt => f
  | Gt => (f + 1)%Z
  | Eq => if Z.even f then f else (f + 1)%Z
  end.

(** [floor (log2 x)] for [x > 0]: the estimate from the bit lengths of
    numerator and denominator is right or one too high. *)
Definition ilog2 (x : Q) : Z :=
  let e0 := (Z.log2 (Qnum x) - Z.log2 (Zpos (Qden x)))%Z in
  if Qle_bool (2 ^ e0) x then e0 else (e0 - 1)%Z.

(** The spacing of doubles at [x > 0]: 53 significant bits, and 2^-1074
    in the subnormal range. *)
Definition quantum (x : Q) : Q := 2 ^ (Z.max (ilog2 x - 52) (-1074)).

Definition roundPos (x : Q) : Q := inject_Z (rne (x / quantum x)) * quantum x.

(** The double nearest to [x]. *)
Definition fl (x : Q) : Q :=
  let x := Qred x in
  match Qcompare x 0 with
  | Eq => 0
  | Gt => roundPos x
  | Lt => - roundPos (- x)
  end.

(** [x] is a double. *)
Definition isDouble (x : Q) : Prop := fl x == x.

(** [a - b], [a * b], [a / b] on doubles. *)
Definition sub (a b : Q) : Q := fl (a - b).
Definition mul (a b : Q) : Q := fl (a * b).
Definition div (a b : Q) : Q := fl (a / b).

End B64.

(** The text of an integer-valued number inside a template literal.  Up to
    2^53 in magnitude these are the digits of the integer.  Beyond that the
    engine prints the shortest digits that identify the double, which this
    model leaves out ([None]). *)
Definition jsShow (z : Z) : option string :=
  if (Z.abs z <=? 2 ^ 53)%Z then Some (showZ z) else None.

(** The two shapes of template in [fmtDuration]. *)
Definition template1 (a : Z) (unitA : string) : option string :=
  match jsShow a with
  | Some sa => Some (sa ++ unitA)%string
  | None => None
  end.
Definition template2 (a : Z) (unitA : string) (b : Z) (unitB : string)
  : option string :=
  match jsShow a, jsShow b with
  | Some sa, Some sb => Some (sa ++ unitA ++ sb ++ unitB)%string
  | _, _ => None
  end.

(** [fmtDuration(ms)] for a double [ms]: whole seconds, minutes, hours and
    days by repeated division and [Math.floor], then the coarsest non-zero
    unit.  Each division rounds to a double before the floor.  [%] is the
    remainder that takes the sign of the dividend, exact on doubles. *)
Definition fmtDuration (ms : Q) : option string :=
  let s := Qfloor (B64.div ms 1000) in
  let m := Qfloor (B64.div (inject_Z s) 60) in
  let h := Qfloor (B64.div (inject_Z m) 60) in
  let d := Qfloor (B64.div (inject_Z h) 24) in
  if (d >? 0)%Z then template2 d "d " (Z.rem h 24) "h"
  else if (h >? 0)%Z then template2 h "h " (Z.rem m 60) "m"
  else if (m >? 0)%Z then template1 m "m"
  else template1 s "s".

(** The rate lines of [render] in binary64; the literals 1.2 and 1.35 are
    the doubles nearest to them, the product associates to the left. *)
Definition renderRate (tNow : Z) (state : PlantState) : Q :=
  let hydrationFactor := clamp (B64.div (hydration state) 80) 0 (B64.fl 1.2) in
  let healthFactor := clamp (B64.div (health state) 85) 0 (B64.fl 1.2) in
  let sunBoost := if (tNow <? sunlightBoostUntil state)%Z then B64.fl 1.35 else 1.0 in
  B64.mul (B64.mul (B64.mul BASE_GROWTH_PER_HOUR hydrationFactor) healthFactor) sunBoost.

(** The part of [render(state)] that fills the [#next] element, in
    binary64.  [tNow] is the clock reading of the [sunBoost] line.
    [hoursToNext] is a number or [Infinity]; [None] stands for
    [Infinity]. *)
Definition renderNext (tNow : Z) (state : PlantState) : option string :=
  let stageIdx := stageFromGrowth (growth state) in
  let nextNeed := nextStageNeed (growth state) in
  let remaining := Qmax 0 (B64.sub nextNeed (growth state)) in
  let hydrationFactor := clamp (B64.div (hydration state) 80) 0 (B64.fl 1.2) in
  let healthFactor := clamp (B64.div (health state) 85) 0 (B64.fl 1.2) in
  let sunBoost := if (tNow <? sunlightBoostUntil state)%Z then B64.fl 1.35 else 1.0 in
  let rate :=
    B64.mul (B64.mul (B64.mul BASE_GROWTH_PER_HOUR hydrationFactor) healthFactor)
            sunBoost in
  let hoursToNext :=
    if Qgtb rate (B64.fl 0.2) then Some (B64.div remaining rate) else None in
  let eta :=
    match hoursToNext with
    | None => Some "— (needs care)"
    | Some hrs => fmtDuration (B64.mul (B64.mul hrs 3600) 1000)
    end in
  if (stageIdx =? List.length STAGES - 1)%nat then Some "Max stage" else eta.

(** ** 32-bit integer operators *)

Module Int32.

Definition toInt32 (z : Z) : Z := ((z + 2 ^ 31) mod 2 ^ 32 - 2 ^ 31)%Z.
Definition toUint32 (z : Z) : Z := (z mod 2 ^ 32)%Z.

(** [a ^ b] *)
Definition xor (a b : Z) : Z := Z.lxor (toInt32 a) (toInt32 b).
(** [a | b] *)
Definition or (a b : Z) : Z := Z.lor (toInt32 a) (toInt32 b).
(** [a << n], for [0 <= n < 32] *)
Definition shl (a n : Z) : Z := toInt32 (Z.shiftl (toInt32 a) n).
(** [a >>> n], for [0 <= n < 32] *)
Definition ushr (a n : Z) : Z := Z.shiftr (toUint32 a) n.

End Int32.

(** ** Pixel renderer *)

(** One [div.pixel] appended to [#plant]: its [left] and [top] offsets in
    CSS pixels and its background colour. *)
Record Pixel := mkPixel { px_left : Z; px_top : Z; px_background : string }.

(** Drawing code runs over two pieces of local state of [drawPlant]: the
    generator variable [seed], read and written by [rand], and the children
    of [#plant], to which [px] appends.  [Draw A] takes the current seed and
    gives the result, the next seed and the pixels appended meanwhile. *)
Definition Draw (A : Type) : Type := Z -> A * Z * list Pixel.

Definition dret {A} (a : A) : Draw A := fun seed => (a, seed, []).

Definition dbind {A B} (m : Draw A) (f : A -> Draw B) : Draw B :=
  fun seed =>
    let '(a, seed1, out1) := m seed in
    let '(b, seed2, out2) := f a seed1 in
    (b, seed2, out1 ++ out2).

Declare Scope draw_scope.
Delimit Scope draw_scope with draw.
Notation "x <- m ;; k" := (dbind m (fun x => k))
  (at level 61, m at next level, right associativity) : draw_scope.
Notation "m ;; k" := (dbind m (fun _ => k))
  (at level 61, right associativity) : draw_scope.

(** [for] over a list of loop indices. *)
Fixpoint dfor {A} (l : list A) (body : A -> Draw unit) : Draw unit :=
  match l with
  | [] => dret tt
  | a :: l' => (body a ;; dfor l' body)%draw
  end.

(** [lo, lo+1, ..., hi] and [hi, hi-1, ..., lo]. *)
Definition upto (lo hi : Z) : list Z :=
  map (fun k => (lo + Z.of_nat k)%Z) (seq 0 (Z.to_nat (hi - lo + 1))).
Definition downto (hi lo : Z) : list Z :=
  map (fun k => (hi - Z.of_nat k)%Z) (seq 0 (Z.to_nat (hi - lo + 1))).

(** [px(x, y, color)] *)
Definition px (x y : Z) (color : string) : Draw unit :=
  fun seed => (tt, seed, [mkPixel (x * 10) (y * 10) color]).

(** [rand()]: xorshift32 on [seed], then the unsigned value over 2^32. *)
Definition rand : Draw Q :=
  fun seed =>
    let seed := Int32.xor seed (Int32.shl seed 13) in
    let seed := Int32.or seed 0 in
    let seed := Int32.xor seed (Int32.ushr seed 17) in
    let seed := Int32.xor seed (Int32.shl seed 5) in
    let seed := Int32.or seed 0 in
    (inject_Z (Int32.ushr seed 0) / 4294967296, seed, []).

(** [let seed = Math.floor((state.createdAt || 0) / 1000) ^ 0x9e3779b9] *)
Definition initSeed (state : PlantState) : Z :=
  let c := if (createdAt state =? 0)%Z then 0%Z else createdAt state in
  Int32.xor (c / 1000)%Z 0x9e3779b9%Z.

Definition flower : string := "#ff7ad9".

(** The two colours that follow health. *)
Definition greenOf (state : PlantState) : string :=
  let health := clamp (health state) 0 100 in
  if Qgtb health 60 then "#68e36b" else if Qgtb health 35 then "#b6df5a" else "#d6c56b".
Definition darkOf (state : PlantState) : string :=
  let health := clamp (health state) 0 100 in
  if Qgtb health 60 then "#2ea84a" else if Qgtb health 35 then "#7aa63b" else "#9a8e39".

Definition stemX : Z := 11.
Definition stemTopOf (stageIdx : nat) : Z := (14 - Z.min (Z.of_nat stageIdx * 2) 10)%Z.

Definition drawPot : Draw unit :=
  let potColor := "#c56b3c" in
  let potDark := "#9f4d24" in
  (dfor (upto 7 14) (fun x => dfor (upto 15 16) (fun y => px x y potColor)) ;;
   dfor (upto 6 15) (fun x => px x 17 potDark) ;;
   dfor (upto 7 14) (fun x => px x 18 potDark))%draw.

Definition drawStem (stageIdx : nat) (dark : string) : Draw unit :=
  dfor (downto 14 (stemTopOf stageIdx)) (fun y => px stemX y dark).

Definition addLeaf (green : string) (cx cy dir : Z) : Draw unit :=
  let c1 := green in
  (px (cx + 0 * dir) cy c1 ;;
   px (cx + 1 * dir) cy c1 ;;
   px (cx + 2 * dir) (cy + 1) c1 ;;
   px (cx + 1 * dir) (cy + 1) c1)%draw.

Definition dwhen (b : bool) (m : Draw unit) : Draw unit := if b then m else dret tt.

Definition drawLeaves (stageIdx : nat) (green : string) : Draw unit :=
  (dwhen (2 <=? stageIdx)%nat (addLeaf green stemX 12 (-1) ;; addLeaf green stemX 11 1) ;;
   dwhen (3 <=? stageIdx)%nat (addLeaf green stemX 10 (-1) ;; addLeaf green stemX 9 1) ;;
   dwhen (4 <=? stageIdx)%nat (addLeaf green stemX 8 (-1) ;; addLeaf green stemX 7 1))%draw.

(** The body of the [for] loop of [drawVine], run [n] more times from the
    cursor [(x, y)]. *)
Fixpoint vineLoop (stageIdx : nat) (vineColor vineLeaf : string) (side : Z)
    (n : nat) (x y : Z) : Draw unit :=
  match n with
  | O => dret tt
  | S n' =>
    (r1 <- rand ;;
     let drift := if Qltb r1 0.55 then side else 0%Z in
     let x := clampZ (x + drift) 0 21 in
     r2 <- rand ;;
     let y := clampZ (y - (if Qltb r2 0.75 then 1 else 0)) 0 18 in
     px x y vineColor ;;
     (r3 <- rand ;;
      if Qltb r3 0.33
      then (r4 <- rand ;;
            px (clampZ (x + side) 0 21)
               (clampZ (y + (if Qltb r4 0.5 then 0 else 1)) 0 19) vineLeaf)
      else dret tt) ;;
     (if (5 <=? stageIdx)%nat
      then (r5 <- rand ;;
            if Qltb r5 0.10
            then px (clampZ x 0 21) (clampZ (y - 1) 0 19) flower
            else dret tt)
      else dret tt) ;;
     vineLoop stageIdx vineColor vineLeaf side n' x y)%draw
  end.

Definition drawVine (stageIdx : nat) (vineColor vineLeaf : string) (side : Z)
  : Draw unit :=
  let x := (stemX + side * 1)%Z in
  let y := 12%Z in
  (r <- rand ;;
   let length := (10 + Qfloor (r * 6) + (if (5 <=? stageIdx)%nat then 4 else 0))%Z in
   vineLoop stageIdx vineColor vineLeaf side (Z.to_nat length) x y)%draw.

Definition drawVines (stageIdx : nat) (dark green : string) : Draw unit :=
  dwhen (4 <=? stageIdx)%nat
    (drawVine stageIdx dark green (-1) ;; drawVine stageIdx dark green 1)%draw.

Definition drawFlower (stageIdx : nat) : Draw unit :=
  dwhen (5 <=? stageIdx)%nat
    (let topY := stemTopOf stageIdx in
     px stemX (topY - 1) flower ;;
     px (stemX - 1) topY flower ;;
     px (stemX + 1) topY flower ;;
     px stemX (topY + 1) flower)%draw.

Definition drawSparkle (state : PlantState) : Draw unit :=
  dwhen (Qgtb (health state) 90 && Qgtb (hydration state) 70)
    (px 3 3 "#ffffff" ;; px 4 3 "#6bd7ff" ;; px 3 4 "#6bd7ff")%draw.

(** [drawPlant(stageIdx, state)] of the later script.  [plant] is the list of
    children of [#plant] on entry; [innerHTML = ''] drops it, so the children
    on exit are the pixels appended by this call. *)
Definition drawPlant (stageIdx : nat) (state : PlantState) (plant : list Pixel)
  : list Pixel :=
  let plant : list Pixel := [] in
  let green := greenOf state in
  let dark := darkOf state in
  let body :=
    (drawPot ;;
     drawStem stageIdx dark ;;
     drawLeaves stageIdx green ;;
     drawVines stageIdx dark green ;;
     drawFlower stageIdx ;;
     drawSparkle state)%draw in
  plant ++ snd (body (initSeed state)).

(** [drawPlant(stageIdx, state)] of [plant.js]: the same lines without the
    generator and the vines. *)
Definition drawPlant_v1 (stageIdx : nat) (state : PlantState) (plant : list Pixel)
  : list Pixel :=
  let plant : list Pixel := [] in
  let green := greenOf state in
  let dark := darkOf state in
  let body :=
    (drawPot ;;
     drawStem stageIdx dark ;;
     drawLeaves stageIdx green ;;
     drawFlower stageIdx ;;
     drawSparkle state)%draw in
  plant ++ snd (body 0%Z).

(** ** Text renderer *)

Module TextMode.

(** The character grid: [H] rows of [W] cells. *)
Definition Grid : Type := list (list ascii).

Definition W : Z := 32.
Definition H : Z := 18.

Definition blank : Grid :=
  repeat (repeat " "%char (Z.to_nat W)) (Z.to_nat H).

(** Assignment to an existing index of an array. *)
Fixpoint setNth {A} (n : nat) (a : A) (l : list A) : list A :=
  match l, n with
  | [], _ => []
  | _ :: t, O => a :: t
  | h :: t, S n' => h :: setNth n' a t
  end.

(** [grid[y][x] = ch] *)
Definition assign (x y : nat) (ch : ascii) (grid : Grid) : Grid :=
  setNth y (setNth x ch (nth y grid [])) grid.

(** [put(x, y, ch)]: nothing outside the grid. *)
Definition put (x y : Z) (ch : ascii) (grid : Grid) : Grid :=
  if ((x <? 0) || (y <? 0) || (x >=? W) || (y >=? H))%Z then grid
  else assign (Z.to_nat x) (Z.to_nat y) ch grid.

(** [grid[y][x]], a blank outside. *)
Definition cell (grid : Grid) (x y : Z) : ascii :=
  if ((x <? 0) || (y <? 0))%Z then " "%char
  else nth (Z.to_nat x) (nth (Z.to_nat y) grid []) " "%char.

(** Statements that update the grid, run in sequence. *)
Definition Paint : Type := Grid -> Grid.
Definition skip : Paint := fun grid => grid.
Definition seq2 (p q : Paint) : Paint := fun grid => q (p grid).

Declare Scope paint_scope.
Delimit Scope paint_scope with paint.
Notation "p ;; q" := (seq2 p q)
  (at level 61, right associativity) : paint_scope.

Fixpoint pfor {A} (l : list A) (body : A -> Paint) : Paint :=
  match l with
  | [] => skip
  | a :: l' => (body a ;; pfor l' body)%paint
  end.

Definition pwhen (b : bool) (p : Paint) : Paint := if b then p else skip.

Definition stemX : Z := 16.
Definition stemTopOf (stageIdx : nat) : Z :=
  (11 - Z.min (Z.of_nat stageIdx * 2) 8)%Z.

Definition backslash : ascii := "\"%char.

Definition drawPot : Paint :=
  let potTopY := 13%Z in
  (pfor (upto 12 19) (fun x => put x potTopY "_") ;;
   put 11 (potTopY + 1) "/" ;;
   pfor (upto 12 19) (fun x => put x (potTopY + 1) " ") ;;
   put 20 (potTopY + 1) backslash ;;
   put 11 (potTopY + 2) "|" ;;
   pfor (upto 12 19) (fun x => put x (potTopY + 2) "#") ;;
   put 20 (potTopY + 2) "|" ;;
   put 12 (potTopY + 3) backslash ;;
   pfor (upto 13 18) (fun x => put x (potTopY + 3) "_") ;;
   put 19 (potTopY + 3) "/")%paint.

Definition drawStem (stageIdx : nat) : Paint :=
  pfor (downto 12 (stemTopOf stageIdx)) (fun y => put stemX y "|").

Definition leaf (y dir : Z) : Paint :=
  (put (stemX + dir) y (if (dir <? 0)%Z then "<" else ">") ;;
   put (stemX + dir * 2) y "-")%paint.

Definition drawLeaves (stageIdx : nat) : Paint :=
  (pwhen (1 <=? stageIdx)%nat (leaf 11 (-1) ;; leaf 10 1) ;;
   pwhen (2 <=? stageIdx)%nat (leaf 9 (-1) ;; leaf 8 1) ;;
   pwhen (3 <=? stageIdx)%nat (leaf 7 (-1) ;; leaf 6 1))%paint.

(** The body of the [for] loop of [curl], run [n] more times from
    iteration [i] and cursor [(x, y)]. *)
Fixpoint curlLoop (side : Z) (n : nat) (i x y : Z) : Paint :=
  match n with
  | O => skip
  | S n' =>
    let x := if (Z.rem i 2 =? 0)%Z then (x + side)%Z else x in
    let y := if negb (Z.rem i 3 =? 0)%Z then (y - 1)%Z else y in
    (put x y (if (side <? 0)%Z then "/" else backslash) ;;
     pwhen (Z.rem i 4 =? 0)%Z (put (x + side) y "*") ;;
     curlLoop side n' (i + 1) x y)%paint
  end.

Definition curl (stageIdx : nat) (seeded : Z) (side : Z) : Paint :=
  let x := (stemX + side)%Z in
  let y := 10%Z in
  let len := (8 + (if (4 <=? stageIdx)%nat then 6 else 0) + Z.rem seeded 4)%Z in
  curlLoop side (Z.to_nat len) 0 x y.

Definition drawVines (stageIdx : nat) (state : PlantState) : Paint :=
  let c := if (createdAt state =? 0)%Z then 0%Z else createdAt state in
  let seeded := (c / 1000)%Z in
  pwhen (4 <=? stageIdx)%nat
    (curl stageIdx seeded (-1) ;; curl stageIdx seeded 1)%paint.

Definition drawFlower (stageIdx : nat) : Paint :=
  let stemTop := stemTopOf stageIdx in
  pwhen (5 <=? stageIdx)%nat
    (put stemX (stemTop - 1) "@" ;;
     put (stemX - 1) stemTop "(" ;;
     put (stemX + 1) stemTop ")")%paint.

Definition title (stageIdx : nat) : string :=
  ("VIRTUAL PLANT  stage:" ++ showZ (Z.of_nat stageIdx + 1) ++ "/"
     ++ showZ (Z.of_nat (List.length STAGES)))%string.

(** [for(i < Math.min(W, title.length)) grid[0][i] = title[i]] *)
Definition drawTitle (stageIdx : nat) : Paint :=
  let title := list_ascii_of_string (title stageIdx) in
  pfor (seq 0 (Nat.min (Z.to_nat W) (List.length title)))
    (fun i => assign i 0 (nth i title " "%char)).

(** The grid at the end of [drawAsciiPlant], before it is joined. *)
Definition plantGrid (stageIdx : nat) (state : PlantState) : Grid :=
  (drawPot ;;
   drawStem stageIdx ;;
   drawLeaves stageIdx ;;
   drawVines stageIdx state ;;
   drawFlower stageIdx ;;
   drawTitle stageIdx)%paint blank.

(** [grid.map(r => r.join('')).join('\n')] *)
Definition joinRows (grid : Grid) : string :=
  String.concat (String "010"%char EmptyString) (map string_of_list_ascii grid).

(** [drawAsciiPlant(stageIdx, state, enabled)]: the new [textContent] of
    [#ascii]; the old one is overwritten on both paths. *)
Definition drawAsciiPlant (stageIdx : nat) (state : PlantState) (enabled : bool)
    (textContent : string) : string :=
  if negb enabled then "" else joinRows (plantGrid stageIdx state).

End TextMode.

(** ** Persistence *)

(** Values that [JSON.parse] can return. *)
#[warnings="-register-all"]
Inductive JSValue :=
| JNull
| JBool (b : bool)
| JNum (q : Q)
| JStr (s : string)
| JArr (items : list JSValue)
| JObj (fields : list (string * JSValue)).

(** A call into the platform either returns or throws. *)
Inductive Outcome (A : Type) :=
| Returns (a : A)
| Throws.
Arguments Returns {A} a.
Arguments Throws {A}.

(** [try { body } catch { return fallback }] *)
Definition tryCatch {A} (body : Outcome A) (fallback : A) : Outcome A :=
  match body with
  | Returns a => Returns a
  | Throws => Returns fallback
  end.

(** The two platform calls of [loadState]: [localStorage.getItem], which
    gives a string or [null], and [JSON.parse]. *)
Record Platform := mkPlatform {
  getItem : string -> Outcome (option string);
  JSON_parse : string -> Outcome JSValue
}.

Definition LS_KEY : string := "virtualPlant.v1".

(** [!raw] for a string or [null]. *)
Definition notRaw (raw : option string) : bool :=
  match raw with
  | None => true
  | Some s => (String.length s =? 0)%nat
  end.

(** [loadState()]; [JNull] is [null]. *)
Definition loadState (env : Platform) : Outcome JSValue :=
  tryCatch
    match getItem env LS_KEY with
    | Throws => Throws
    | Returns raw =>
      if notRaw raw then Returns JNull
      else match raw with
           | None => Returns JNull
           | Some s => JSON_parse env s
           end
    end
    JNull.

(** Truthiness, as [||] tests it. *)
Definition truthy (v : JSValue) : bool :=
  match v with
  | JNull => false
  | JBool b => b
  | JNum q => negb (Qeq_bool q 0)
  | JStr s => negb (String.length s =? 0)%nat
  | JArr _ => true
  | JObj _ => true
  end.

(** The object literal that [newPlant] builds, as a value. *)
Definition plantObject (p : PlantState) : JSValue :=
  JObj [ ("createdAt", JNum (inject_Z (createdAt p)));
         ("lastTickAt", JNum (inject_Z (lastTickAt p)));
         ("growth", JNum (growth p));
         ("hydration", JNum (hydration p));
         ("health", JNum (health p));
         ("lastActionAt", JNum (inject_Z (lastActionAt p)));
         ("sunlightBoostUntil", JNum (inject_Z (sunlightBoostUntil p))) ].

(** [let state = loadState() || newPlant();] in [main]: the clock is read
    only when the left operand is falsy. *)
Definition initialState (env : Platform) (t : Z) : Outcome JSValue :=
  match loadState env with
  | Throws => Throws
  | Returns v => if truthy v then Returns v else Returns (plantObject (newPlant t))
  end.

(** ** Predicates used in the statements *)

(** Hydration and health inside [0, 100]. *)
Definition inRange (state : PlantState) : Prop :=
  (0 <= hydration state /\ hydration state <= 100) /\
  (0 <= health state /\ health state <= 100).

(** A state with every quantity inside its documented range. *)
Definition validState (state : PlantState) : Prop :=
  0 <= growth state /\ inRange state.

(** The (leaf, stem) colour pair that [drawPlant] uses for a state, and
    the three pairs that appear in its two colour lines. *)
Definition palette (state : PlantState) : string * string :=
  (greenOf state, darkOf state).
Definition lushPair : string * string := ("#68e36b", "#2ea84a").
Definition stressedPair : string * string := ("#b6df5a", "#7aa63b").
Definition wiltingPair : string * string := ("#d6c56b", "#9a8e39").

(** The bands as the specification words them: above 60, from 35 to 60,
    below 35. *)
Definition bandsAsWorded (state : PlantState) : Prop :=
  (60 < health state -> palette state = lushPair) /\
  (35 <= health state /\ health state <= 60 -> palette state = stressedPair) /\
  (health state < 35 -> palette state = wiltingPair).

(** A value that is the object of some plant state. *)
Definition representsPlant (v : JSValue) : Prop :=
  exists p : PlantState, v = plantObject p.

(** The stored record cannot be used: reading it throws, nothing (or the
    empty string) is stored, or parsing it throws or gives a falsy value. *)
Definition recordUnusable (env : Platform) : Prop :=
  getItem env LS_KEY = Throws \/
  getItem env LS_KEY = Returns None \/
  getItem env LS_KEY = Returns (Some "") \/
  exists raw,
    getItem env LS_KEY = Returns (Some raw) /\
    (JSON_parse env raw = Throws \/
     exists v, JSON_parse env raw = Returns v /\ truthy v = false).

(** A store that holds the text of the empty object under every key, with
    [JSON.parse] known on that text. *)
Definition emptyObjectStore : Platform :=
  {| getItem := fun _ => Returns (Some "{}");
     JSON_parse := fun s => if String.eqb s "{}" then Returns (JObj []) else Throws |}.

(** A store that holds a truncated record, on which [JSON.parse] throws. *)
Definition truncatedStore : Platform :=
  {| getItem := fun _ => Returns (Some "{'growth':12,");
     JSON_parse := fun s => if String.eqb s "{}" then Returns (JObj []) else Throws |}.

(** A store that cannot be read at all: every [getItem] throws. *)
Definition blockedStore : Platform :=
  {| getItem := fun _ => Throws;
     JSON_parse := fun s => if String.eqb s "{}" then Returns (JObj []) else Throws |}.

(** Membership of a pixel in a scene, decided field by field. *)
Definition pixel_eqb (p q : Pixel) : bool :=
  (px_left p =? px_left q)%Z && (px_top p =? px_top q)%Z
  && String.eqb (px_background p) (px_background q).
Definition hasPixel (scene : list Pixel) (p : Pixel) : bool :=
  existsb (pixel_eqb p) scene.

(** How many pixels of a scene have a given background colour. *)
Definition countColor (color : string) (scene : list Pixel) : nat :=
  List.length (filter (fun p => String.eqb (px_background p) color) scene).

(** The four pixels that [addLeaf(stemX, cy, dir)] appends, and whether a
    scene holds all of them. *)
Definition leafPixels (green : string) (cy dir : Z) : list Pixel :=
  snd (addLeaf green stemX cy dir 0%Z).
Definition hasLeaf (scene : list Pixel) (green : string) (cy dir : Z) : bool :=
  forallb (hasPixel scene) (leafPixels green cy dir).

(** Whether a character grid shows, next to the stem on row [y] and side
    [dir], the glyph that [leaf(y, dir)] puts there. *)
Definition hasLeafGlyph (grid : TextMode.Grid) (y dir : Z) : bool :=
  Ascii.eqb (TextMode.cell grid (TextMode.stemX + dir) y)
            (if (dir <? 0)%Z then "<" else ">")%char.

(** The six leaves of each renderer: the stage index from which the leaf is
    drawn, its row, its side (-1 left, 1 right). *)
Definition pixelLeafSlots : list (nat * Z * Z) :=
  [ (2%nat, 12, -1); (2%nat, 11, 1);
    (3%nat, 10, -1); (3%nat, 9, 1);
    (4%nat, 8, -1);  (4%nat, 7, 1) ]%Z.
Definition textLeafSlots : list (nat * Z * Z) :=
  [ (1%nat, 11, -1); (1%nat, 10, 1);
    (2%nat, 9, -1);  (2%nat, 8, 1);
    (3%nat, 7, -1);  (3%nat, 6, 1) ]%Z.

(** The text rows with the thresholds 2, 3, 4 that the specification gives
    for both renderers. *)
Definition textLeafSlotsAsWorded : list (nat * Z * Z) :=
  [ (2%nat, 11, -1); (2%nat, 10, 1);
    (3%nat, 9, -1);  (3%nat, 8, 1);
    (4%nat, 7, -1);  (4%nat, 6, 1) ]%Z.

Definition sideOf (slot : nat * Z * Z) : Z := snd slot.

(** A painting statement leaves the cell [(x, y)] as it was. *)
Definition keeps (x y : Z) (p : TextMode.Paint) : Prop :=
  forall grid, TextMode.cell (p grid) x y = TextMode.cell grid x y.

(** ** The rest of the page script *)

(** [Math.round]: the nearest integer, a half going up. *)
Definition mathRound (x : Q) : Z := Qfloor (x + (1 # 2)).

(** The parts of [render(state)] that fill [#hydration], [#health] and
    [#age]; [tNow] is the clock reading of the age line. *)
Definition renderHydration (state : PlantState) : string :=
  (showZ (mathRound (hydration state)) ++ "%")%string.
Definition renderHealth (state : PlantState) : string :=
  (showZ (mathRound (health state)) ++ "%")%string.
Definition renderAge (tNow : Z) (state : PlantState) : option string :=
  fmtDuration (B64.sub (inject_Z tNow) (inject_Z (createdAt state))).

(** What can happen to the page after startup: the 10-second timer fires or
    one of the three buttons is clicked.  Each event carries the state of
    the fast-mode box, the answer to the confirmation dialog and the clock
    readings that its handler takes, in call order. *)
Inductive Event :=
| TimerFired (fastChecked : bool) (t : Z)
| WaterClicked (fastChecked : bool) (tAct tTick : Z)
| SunClicked (fastChecked : bool) (tBoost tAct tTick : Z)
| ResetClicked (confirmed : bool) (t : Z).




(** The last clock reading that an event writes to [lastTickAt], if any. *)
Definition tickReading (ev : Event) : option Z :=
  match ev with
  | TimerFired _ t => Some t
  | WaterClicked _ _ tTick => Some tTick
  | SunClicked _ _ _ tTick => Some tTick
  | ResetClicked confirmed t => if confirmed then Some t else None
  end.

(** [localStorage] as far as the script uses it: strings under string keys.
    [getItem] gives [null] for a key never set. *)
Definition Store : Type := string -> option string.

Definition setItem (key value : string) (store : Store) : Store :=
  fun k => if String.eqb k key then Some value else store k.

(** [saveState(state)], with [JSON.stringify] as a parameter. *)
Definition saveState (JSON_stringify : JSValue -> string) (state : JSValue)
    (store : Store) : Store :=
  setItem LS_KEY (JSON_stringify state) store.

(** The platform as [loadState] sees it over a store that can be read. *)
Definition platformOver (store : Store) (parse : string -> Outcome JSValue)
  : Platform :=
  {| getItem := fun k => Returns (store k); JSON_parse := parse |}.

Definition ASCII_KEY : string := "virtualPlant.asciiMode".

(** The text-mode preference in [main]: read at startup
    ([pref === null ? true : pref === '1']) and written by the change
    handler of the checkbox. *)
Definition readAsciiMode (store : Store) : bool :=
  match store ASCII_KEY with
  | None => true
  | Some pref => String.eqb pref "1"
  end.
Definition writeAsciiMode (checked : bool) (store : Store) : Store :=
  setItem ASCII_KEY (if checked then "1" else "0") store.

(** The later script's [main] from its first storage access up to and
    including [let state = loadState() || newPlant();].  The preference is
    read first, by a [localStorage.getItem] that stands outside any [try]:
    when it throws, [main] stops there.  The result is the value given to
    [window.__asciiMode] and the initial state.  In [plant.js] the same
    stretch of [main] is [initialState] alone. *)
Definition main_start (env : Platform) (t : Z) : Outcome (bool * JSValue) :=
  match getItem env ASCII_KEY with
  | Throws => Throws
  | Returns pref =>
    let asciiMode :=
      match pref with
      | None => true
      | Some p => String.eqb p "1"
      end in
    match initialState env t with
    | Throws => Throws
    | Returns state => Returns (asciiMode, state)
    end
  end.

(** Grid coordinates of a pixel inside the 22 by 20 canvas. *)
Definition onCanvas (p : Pixel) : Prop :=
  (0 <= px_left p <= 210 /\ 0 <= px_top p <= 190)%Z.


(** A character grid of the full size. *)
Definition fullSize (grid : TextMode.Grid) : Prop :=
  List.length grid = Z.to_nat TextMode.H /\
  Forall (fun row => List.length row = Z.to_nat TextMode.W) grid.

(** Every pixel that a drawing statement appends satisfies [P], whatever
    the seed it starts from. *)
Definition emits {A} (P : Pixel -> Prop) (m : Draw A) : Prop :=
  forall seed, Forall P (snd (m seed)).

(** A drawing statement appends at most [n] pixels. *)
Definition emitsAtMost {A} (n : nat) (m : Draw A) : Prop :=
  forall seed, (List.length (snd (m seed)) <= n)%nat.

(** A drawing statement appends exactly [n] pixels of colour [color],
    whatever the seed it starts from. *)
Definition emitsColor {A} (color : string) (n : nat) (m : Draw A) : Prop :=
  forall seed, countColor color (snd (m seed)) = n.

(** * Properties *)

(** ** Clamping and comparisons *)

Lemma clamp_bounds (n a b : Q) : a <= b -> a <= clamp n a b /\ clamp n a b <= b.
Proof.
  intros Hab. unfold clamp. split.
  - apply Q.le_max_l.
  - apply Q.max_lub; [exact Hab | apply Q.le_min_l].
Qed.

Lemma clamp_inside (n a b : Q) : a <= n -> n <= b -> clamp n a b == n.
Proof.
  intros Han Hnb. unfold clamp.
  rewrite (Q.min_r b n) by exact Hnb.
  apply Q.max_r. exact Han.
Qed.

#[global] Instance clamp_compat : Proper (Qeq ==> Qeq ==> Qeq ==> Qeq) clamp.
Proof.
  intros n n' Hn a a' Ha b b' Hb. unfold clamp. now rewrite Hn, Ha, Hb.
Qed.

Lemma Qltb_lt (a b : Q) : Qltb a b = true <-> a < b.
Proof.
  unfold Qltb. rewrite negb_true_iff, <- not_true_iff_false, Qle_bool_iff.
  split; [apply Qnot_le_lt | apply Qlt_not_le].
Qed.

Lemma Qltb_ge (a b : Q) : Qltb a b = false <-> b <= a.
Proof.
  unfold Qltb. rewrite negb_false_iff. apply Qle_bool_iff.
Qed.

Lemma Qgeb_le (a b : Q) : Qgeb a b = true <-> b <= a.
Proof. apply Qle_bool_iff. Qed.

#[global] Instance Qltb_compat : Proper (Qeq ==> Qeq ==> eq) Qltb.
Proof.
  intros a a' Ha b b' Hb. unfold Qltb. now rewrite Ha, Hb.
Qed.

(** ** The simulation step *)

Section Tick.

Variables (t : Z) (state : PlantState) (timeScale : Q).

(** The simulated hours that [tick] integrates over. *)
Let hours : Q :=
  inject_Z (Z.max 0 (t - lastTickAt state)) * timeScale / (1000 * 60 * 60).

Lemma hours_nonneg : 0 <= timeScale -> 0 <= hours.
Proof.
  intros Hs. unfold hours.
  assert (H0 : 0 <= inject_Z (Z.max 0 (t - lastTickAt state))).
  { change 0 with (inject_Z 0). rewrite <- Zle_Qle. apply Z.le_max_l. }
  apply Qle_shift_div_l; [reflexivity |].
  rewrite Qmult_0_l. apply Qmult_le_0_compat; assumption.
Qed.

Lemma hours_zero : (t <= lastTickAt state)%Z -> hours == 0.
Proof.
  intros Ht. unfold hours.
  replace (Z.max 0 (t - lastTickAt state)) with 0%Z by lia.
  reflexivity.
Qed.

Lemma tick_inRange : inRange (tick t state timeScale).
Proof.
  unfold inRange, tick; cbn [hydration health].
  split; apply clamp_bounds; discriminate.
Qed.



End Tick.

(** C1.  From a state whose hydration and health lie in [0, 100], a tick
    (clock not behind [lastTickAt], positive time scale), the water handler,
    the sunlight handler and the reset handler each give a state whose
    hydration and health lie in [0, 100] again. *)
Theorem resources_stay_in_range :
  forall (state : PlantState) (t : Z) (timeScale : Q)
         (fast confirmed : bool) (tAct tBoost : Z),
    inRange state ->
    (lastTickAt state <= t)%Z ->
    0 < timeScale ->
    inRange (tick t state timeScale) /\
    inRange (onWater fast tAct t state) /\
    inRange (onSun fast tBoost tAct t state) /\
    inRange (onReset confirmed t state).
Proof.
  intros state t timeScale fast confirmed tAct tBoost Hin _ _.
  split; [apply tick_inRange |].
  split; [unfold onWater, doTick; apply tick_inRange |].
  split; [unfold onSun, doTick; apply tick_inRange |].
  unfold onReset. destruct confirmed; [| exact Hin].
  unfold inRange, newPlant; cbn [hydration health].
  repeat split; discriminate.
Qed.

Lemma resources_stay_in_range_witness :
  inRange (tick 3600000 (newPlant 0) 1) /\
  inRange (onWater true 10 3600000 (newPlant 0)) /\
  inRange (onSun true 5 10 3600000 (newPlant 0)) /\
  inRange (onReset true 3600000 (newPlant 0)).
Proof.
  apply (resources_stay_in_range (newPlant 0) 3600000 1 true true 10 5).
  - unfold inRange; cbn; repeat split; discriminate.
  - cbn; lia.
  - reflexivity.
Defined.



(** C3.  A fresh plant ticked exactly one hour after its creation at time
    scale 1 has hydration 62, health 85 + ((62 - 55) / 55) * 10 (the trend is
    taken from the hydration already lowered by this tick, not from the 70
    before it) and strictly positive growth. *)
Theorem fresh_plant_after_one_hour :
  forall t0 : Z,
    let state := tick (t0 + 3600000) (newPlant t0) 1 in
    hydration state == 62 /\
    health state == 85 + ((62 - 55) / 55) * 10 /\
    ~ health state == 85 + ((70 - 55) / 55) * 10 /\
    0 < growth state.
Proof.
  intros t0. unfold tick, newPlant.
  cbn [createdAt lastTickAt growth hydration health lastActionAt sunlightBoostUntil].
  replace (t0 + 3600000 - t0)%Z with 3600000%Z by lia.
  destruct (t0 + 3600000 <? 0)%Z; vm_compute; repeat split; discriminate.
Qed.

(** C7.  A tick at the very instant of the previous one (zero elapsed time)
    leaves hydration, health and growth of a valid state as they were;
    [lastTickAt] does not move back and no other field changes. *)
Theorem zero_elapsed_tick_changes_nothing :
  forall (state : PlantState) (timeScale : Q),
    validState state ->
    0 < timeScale ->
    let state' := tick (lastTickAt state) state timeScale in
    hydration state' == hydration state /\
    health state' == health state /\
    growth state' == growth state /\
    (lastTickAt state <= lastTickAt state')%Z /\
    createdAt state' = createdAt state /\
    lastActionAt state' = lastActionAt state /\
    sunlightBoostUntil state' = sunlightBoostUntil state.
Proof.
  intros state timeScale (Hg & (Hy0 & Hy1) & (He0 & He1)) _.
  unfold tick.
  cbn [createdAt lastTickAt growth hydration health lastActionAt sunlightBoostUntil].
  set (hours := inject_Z _ * timeScale / _).
  assert (Hh : hours == 0).
  { unfold hours. apply hours_zero. lia. }
  assert (Hhy : clamp (hydration state - hours * 8) 0 100 == hydration state).
  { rewrite Hh. setoid_replace (hydration state - 0 * 8) with (hydration state) by ring.
    apply clamp_inside; assumption. }
  repeat split; try lia.
  - exact Hhy.
  - rewrite Hh. rewrite Qmult_0_l, Qplus_0_r. apply clamp_inside; assumption.
  - rewrite Hh. rewrite Qmult_0_l, Qplus_0_r. apply Q.max_r. exact Hg.
Qed.

Lemma zero_elapsed_tick_changes_nothing_witness :
  let state' := tick (lastTickAt (newPlant 7)) (newPlant 7) 60 in
  hydration state' == hydration (newPlant 7) /\
  health state' == health (newPlant 7) /\
  growth state' == growth (newPlant 7) /\
  (lastTickAt (newPlant 7) <= lastTickAt state')%Z /\
  createdAt state' = createdAt (newPlant 7) /\
  lastActionAt state' = lastActionAt (newPlant 7) /\
  sunlightBoostUntil state' = sunlightBoostUntil (newPlant 7).
Proof.
  apply (zero_elapsed_tick_changes_nothing (newPlant 7) 60).
  - unfold validState, inRange; cbn; repeat split; discriminate.
  - reflexivity.
Defined.

(** ** Stage lookup *)

Section LastHit.

(** The loop of [stageFromGrowth] for any test [p] on the row index:
    [idx] ends as the last row that passed, or 0 when none did. *)
Variable p : nat -> bool.

Let scan (n : nat) : nat :=
  fold_left (fun idx i => if p i then i else idx) (seq 0 n) 0%nat.

Lemma scan_succ (n : nat) : scan (S n) = if p n then n else scan n.
Proof.
  unfold scan. rewrite seq_S, fold_left_app. reflexivity.
Qed.

Lemma scan_bound (n : nat) : (scan n <= Nat.pred n)%nat.
Proof.
  induction n as [| n IH]; [reflexivity |].
  rewrite scan_succ. destruct (p n); cbn; lia.
Qed.

Lemma scan_hit (n : nat) :
  (exists i, (i < n)%nat /\ p i = true) -> p (scan n) = true.
Proof.
  induction n as [| n IH]; intros (i & Hi & Hp); [lia |].
  rewrite scan_succ. destruct (p n) eqn:Hn; [exact Hn |].
  apply IH. exists i. split; [| exact Hp].
  assert (i <> n) by congruence. lia.
Qed.

Lemma scan_largest (n j : nat) : (j < n)%nat -> p j = true -> (j <= scan n)%nat.
Proof.
  induction n as [| n IH]; intros Hj Hp; [lia |].
  rewrite scan_succ. destruct (p n) eqn:Hn; [lia |].
  apply IH; [| exact Hp].
  assert (j <> n) by congruence. lia.
Qed.

End LastHit.

Lemma stageFromGrowth_in_table (g : Q) :
  (stageFromGrowth g < List.length STAGES)%nat.
Proof.
  unfold stageFromGrowth.
  pose proof (scan_bound (fun i => Qgeb g (need (stageAt i))) (List.length STAGES)) as H.
  cbn in H |- *. lia.
Qed.

Lemma stageFromGrowth_reached (g : Q) :
  0 <= g -> need (stageAt (stageFromGrowth g)) <= g.
Proof.
  intros Hg. apply Qgeb_le. unfold stageFromGrowth.
  apply (scan_hit (fun i => Qgeb g (need (stageAt i)))).
  exists 0%nat. split; [cbn; lia |]. apply Qgeb_le. exact Hg.
Qed.

Lemma stageFromGrowth_largest (g : Q) (j : nat) :
  (j < List.length STAGES)%nat -> need (stageAt j) <= g ->
  (j <= stageFromGrowth g)%nat.
Proof.
  intros Hj Hn. unfold stageFromGrowth.
  apply (scan_largest (fun i => Qgeb g (need (stageAt i)))); [exact Hj |].
  apply Qgeb_le. exact Hn.
Qed.

(** C4.  For growth at least 0, [stageFromGrowth] is the largest row of the
    stage table whose threshold is at most growth; it does not go down when
    growth goes up; and growth 150, exactly the threshold of Bushy, gives
    the row of Bushy. *)
Theorem stageFromGrowth_is_largest_reached :
  forall g g' : Q,
    0 <= g ->
    g <= g' ->
    ((stageFromGrowth g < List.length STAGES)%nat /\
     need (stageAt (stageFromGrowth g)) <= g /\
     (forall j, (j < List.length STAGES)%nat -> need (stageAt j) <= g ->
                (j <= stageFromGrowth g)%nat)) /\
    (stageFromGrowth g <= stageFromGrowth g')%nat /\
    stageFromGrowth 150 = 4%nat /\
    name (stageAt (stageFromGrowth 150)) = "Bushy".
Proof.
  intros g g' Hg Hle. repeat split.
  - apply stageFromGrowth_in_table.
  - apply stageFromGrowth_reached. exact Hg.
  - intros j. apply stageFromGrowth_largest.
  - apply stageFromGrowth_largest; [apply stageFromGrowth_in_table |].
    apply Qle_trans with g; [| exact Hle].
    apply stageFromGrowth_reached. exact Hg.
Qed.

Lemma stageFromGrowth_is_largest_reached_witness :
  ((stageFromGrowth 150 < List.length STAGES)%nat /\
   need (stageAt (stageFromGrowth 150)) <= 150 /\
   (forall j, (j < List.length STAGES)%nat -> need (stageAt j) <= 150 ->
              (j <= stageFromGrowth 150)%nat)) /\
  (stageFromGrowth 150 <= stageFromGrowth 229.5)%nat /\
  stageFromGrowth 150 = 4%nat /\
  name (stageAt (stageFromGrowth 150)) = "Bushy".
Proof.
  apply (stageFromGrowth_is_largest_reached 150 229.5); discriminate.
Defined.

(** ** Rounding to binary64 *)

Lemma rne_bounds (z : Q) : (Qfloor z <= B64.rne z <= Qfloor z + 1)%Z.
Proof.
  unfold B64.rne. cbv zeta.
  destruct (Qcompare _ _); [destruct (Z.even _) | |]; lia.
Qed.

Lemma Z_pow2_Q (k : Z) : (0 <= k)%Z -> inject_Z (2 ^ k) == 2 ^ k.
Proof. intros Hk. now rewrite Zpower_Qpower. Qed.

Lemma pow2_pos (k : Z) : 0 < 2 ^ k.
Proof. apply Qpower_0_lt. reflexivity. Qed.

(** The lower half of what [ilog2] promises. *)
Lemma ilog2_lower (x : Q) : 0 < x -> 2 ^ B64.ilog2 x <= x.
Proof.
  intros Hx. unfold B64.ilog2. cbv zeta.
  set (a := Z.log2 (Qnum x)). set (b := Z.log2 (Zpos (Qden x))).
  destruct (Qle_bool (2 ^ (a - b)) x) eqn:E; [now apply Qle_bool_iff |].
  assert (Hn : (0 < Qnum x)%Z).
  { unfold Qlt in Hx. cbn in Hx. lia. }
  destruct (Z.log2_spec (Qnum x) Hn) as [Ha _]. fold a in Ha.
  destruct (Z.log2_spec (Zpos (Qden x)) (Pos2Z.is_pos _)) as [_ Hb]. fold b in Hb.
  assert (Ha0 : (0 <= a)%Z) by apply Z.log2_nonneg.
  assert (Hb0 : (0 <= b)%Z) by apply Z.log2_nonneg.
  assert (Hx' : x == inject_Z (Qnum x) / inject_Z (Zpos (Qden x))).
  { destruct x as [n d]. cbn [Qnum Qden]. apply Qmake_Qdiv. }
  rewrite Hx'.
  apply Qle_shift_div_l.
  { change 0 with (inject_Z 0). rewrite <- Zlt_Qlt. lia. }
  apply Qle_trans with (2 ^ (a - b - 1) * 2 ^ (Z.succ b)).
  - apply Qmult_le_l; [apply pow2_pos |].
    rewrite <- Z_pow2_Q by lia. rewrite <- Zle_Qle. lia.
  - rewrite <- Qpower_plus by discriminate.
    replace (a - b - 1 + Z.succ b)%Z with a by lia.
    rewrite <- Z_pow2_Q by lia. rewrite <- Zle_Qle. exact Ha.
Qed.

Lemma quantum_pos (x : Q) : 0 < B64.quantum x.
Proof. apply pow2_pos. Qed.

Lemma quantum_small (x : Q) : 0 < x -> B64.quantum x <= x + 1.
Proof.
  intros Hx. unfold B64.quantum.
  destruct (Z.max_spec (B64.ilog2 x - 52) (-1074)) as [[_ ->] | [_ ->]].
  - apply Qle_trans with 1; [| lra].
    setoid_replace 1 with (2 ^ 0) by reflexivity.
    apply Qpower_le_compat_l; [lia | discriminate].
  - apply Qle_trans with (2 ^ B64.ilog2 x).
    + apply Qpower_le_compat_l; [lia | discriminate].
    + pose proof (ilog2_lower x Hx). lra.
Qed.

Lemma roundPos_bounds (x : Q) :
  0 < x -> 0 <= B64.roundPos x /\ B64.roundPos x <= 2 * x + 1.
Proof.
  intros Hx. unfold B64.roundPos.
  pose proof (quantum_pos x) as Hq. pose proof (quantum_small x Hx) as Hs.
  set (u := B64.quantum x) in *.
  assert (Hz : 0 < x / u) by (apply Qlt_shift_div_l; lra).
  destruct (rne_bounds (x / u)) as [Hlo Hhi].
  assert (Hf0 : (0 <= Qfloor (x / u))%Z).
  { change 0%Z with (Qfloor 0). apply Qfloor_resp_le. lra. }
  assert (Hf1 : inject_Z (Qfloor (x / u)) <= x / u) by apply Qfloor_le.
  split.
  - apply Qmult_le_0_compat; [| lra].
    change 0 with (inject_Z 0). rewrite <- Zle_Qle. lia.
  - assert (Hr : inject_Z (B64.rne (x / u)) <= x / u + 1).
    { apply Qle_trans with (inject_Z (Qfloor (x / u) + 1)).
      - rewrite <- Zle_Qle. exact Hhi.
      - rewrite inject_Z_plus. change (inject_Z 1) with 1. lra. }
    apply Qle_trans with ((x / u + 1) * u).
    + apply Qmult_le_compat_r; [exact Hr | lra].
    + setoid_replace ((x / u + 1) * u) with (x + u) by (field; lra). lra.
Qed.

(** Equal rationals round to the same double. *)
#[global] Instance fl_compat : Proper (Qeq ==> eq) B64.fl.
Proof.
  intros x y H. unfold B64.fl. now rewrite (Qred_complete x y H).
Qed.

(** Rounding keeps the sign and does not more than double a value above 1:
    a coarse bound, enough to keep the numbers of the status line far below
    2^53. *)
Lemma fl_bounds (x : Q) : 0 <= x -> 0 <= B64.fl x /\ B64.fl x <= 2 * x + 1.
Proof.
  intros Hx. unfold B64.fl. cbv zeta.
  pose proof (Qred_correct x) as Hr.
  destruct (Qcompare (Qred x) 0) eqn:E.
  - split; [apply Qle_refl | lra].
  - apply Qlt_alt in E. lra.
  - apply Qgt_alt in E.
    destruct (roundPos_bounds (Qred x) E) as [H0 H1]. split; [exact H0 | lra].
Qed.

(** ** Time to the next stage *)

(** Below the last stage the next threshold is still ahead of growth. *)
Lemma next_threshold_ahead (g : Q) :
  stageFromGrowth g <> (List.length STAGES - 1)%nat ->
  nextStageNeed g = need (stageAt (stageFromGrowth g + 1)) /\
  g < need (stageAt (stageFromGrowth g + 1)).
Proof.
  intros Hlast.
  pose proof (stageFromGrowth_in_table g) as Hin.
  split.
  - unfold nextStageNeed. cbv zeta. f_equal. f_equal. lia.
  - apply Qnot_le_lt. intros Hle.
    assert (stageFromGrowth g + 1 <= stageFromGrowth g)%nat; [| lia].
    apply stageFromGrowth_largest; [lia | exact Hle].
Qed.

Lemma thresholds_at_most_230 (i : nat) : need (stageAt i) <= 230.
Proof.
  unfold stageAt, STAGES.
  do 6 (destruct i as [| i]; [cbn; discriminate |]).
  destruct i; cbn; discriminate.
Qed.

(** Whole numbers between 0 and a bound survive the floor. *)
Lemma Qfloor_between (x : Q) (bound : Z) :
  0 <= x -> x <= inject_Z bound -> (0 <= Qfloor x <= bound)%Z.
Proof.
  intros H0 H1. split.
  - change 0%Z with (Qfloor 0). now apply Qfloor_resp_le.
  - rewrite <- (Qfloor_Z bound). now apply Qfloor_resp_le.
Qed.

(** One step of [fmtDuration]: divide by at least 4, round, floor. *)
Lemma floor_div_between (x c : Q) (bound : Z) :
  0 <= x -> x <= inject_Z bound -> 4 <= c -> (2 <= bound)%Z ->
  (0 <= Qfloor (B64.div x c) <= bound)%Z.
Proof.
  intros Hx Hb Hc H2. unfold B64.div.
  assert (Hc0 : 0 < c) by lra.
  assert (Hy : x / c * c == x) by (field; lra).
  set (y := x / c) in *.
  assert (Hy0 : 0 <= y) by (apply Qle_shift_div_l; lra).
  assert (Hy1 : 4 * y <= x).
  { rewrite <- Hy. rewrite (Qmult_comm y c).
    apply Qmult_le_compat_r; assumption. }
  assert (Hb2 : 2 <= inject_Z bound).
  { change 2 with (inject_Z 2). now rewrite <- Zle_Qle. }
  destruct (fl_bounds y Hy0) as [H0 H1].
  apply Qfloor_between; lra.
Qed.

Lemma jsShow_defined (z : Z) :
  (Z.abs z <= 2 ^ 53)%Z -> jsShow z = Some (showZ z).
Proof.
  intros H. unfold jsShow. apply Z.leb_le in H. now rewrite H.
Qed.

(** [fmtDuration] prints every duration from 0 to 10^15 milliseconds. *)
Lemma fmtDuration_defined (ms : Q) :
  0 <= ms -> ms <= 1000000000000000 -> exists text, fmtDuration ms = Some text.
Proof.
  intros H0 H1. unfold fmtDuration. cbv zeta.
  set (bound := 1000000000000000%Z).
  assert (Hbound : (2 <= bound)%Z) by (unfold bound; lia).
  assert (Hstep : forall k c, (0 <= k <= bound)%Z -> 4 <= c ->
            (0 <= Qfloor (B64.div (inject_Z k) c) <= bound)%Z).
  { intros k c Hk Hc. apply floor_div_between; [| | exact Hc | exact Hbound].
    - change 0 with (inject_Z 0). rewrite <- Zle_Qle. lia.
    - rewrite <- Zle_Qle. lia. }
  assert (Hs : (0 <= Qfloor (B64.div ms 1000) <= bound)%Z).
  { apply floor_div_between; [exact H0 | exact H1 | discriminate | exact Hbound]. }
  set (s := Qfloor (B64.div ms 1000)) in *.
  assert (Hm := Hstep s 60 Hs ltac:(discriminate)).
  set (m := Qfloor (B64.div (inject_Z s) 60)) in *.
  assert (Hh := Hstep m 60 Hm ltac:(discriminate)).
  set (h := Qfloor (B64.div (inject_Z m) 60)) in *.
  assert (Hd := Hstep h 24 Hh ltac:(discriminate)).
  set (d := Qfloor (B64.div (inject_Z h) 24)) in *.
  assert (Hshow : forall z, (0 <= z <= bound)%Z -> jsShow z = Some (showZ z)).
  { intros z Hz. apply jsShow_defined. unfold bound in Hz. lia. }
  assert (Hrem : forall z c, (0 <= z <= bound)%Z -> (0 < c <= 60)%Z ->
            jsShow (Z.rem z c) = Some (showZ (Z.rem z c))).
  { intros z c Hz Hc. apply jsShow_defined.
    pose proof (Z.rem_bound_pos z c ltac:(lia) ltac:(lia)). lia. }
  unfold template1, template2.
  destruct (d >? 0)%Z.
  - rewrite (Hshow d Hd), (Hrem h 24%Z Hh) by lia. eauto.
  - destruct (h >? 0)%Z.
    + rewrite (Hshow h Hh), (Hrem m 60%Z Hm) by lia. eauto.
    + destruct (m >? 0)%Z.
      * rewrite (Hshow m Hm). eauto.
      * rewrite (Hshow s Hs). eauto.
Qed.

(** C5.  What [render] writes as the time to the next stage, computed in
    the engine's doubles, for a valid state whose quantities are doubles:
    "Max stage" at the last stage; below it, the needs-care text when the
    rate recomputed at render time is at most 0.2 (the double); otherwise
    the formatted duration of (next threshold - growth) / rate hours,
    times 3600 and 1000 to milliseconds. *)
Theorem next_stage_estimate :
  forall (tNow : Z) (state : PlantState),
    validState state ->
    B64.isDouble (growth state) ->
    B64.isDouble (hydration state) ->
    B64.isDouble (health state) ->
    let idx := stageFromGrowth (growth state) in
    let rate := renderRate tNow state in
    (idx = (List.length STAGES - 1)%nat ->
       renderNext tNow state = Some "Max stage") /\
    (idx <> (List.length STAGES - 1)%nat -> rate <= B64.fl 0.2 ->
       renderNext tNow state = Some "— (needs care)") /\
    (idx <> (List.length STAGES - 1)%nat -> B64.fl 0.2 < rate ->
       let hours :=
         B64.div (B64.sub (need (stageAt (idx + 1))) (growth state)) rate in
       exists text,
         fmtDuration (B64.mul (B64.mul hours 3600) 1000) = Some text /\
         renderNext tNow state = Some text).
Proof.
  intros tNow state (Hg & _) _ _ _ idx rate.
  assert (Hunfold : renderNext tNow state =
    if (idx =? List.length STAGES - 1)%nat then Some "Max stage"
    else if Qgtb rate (B64.fl 0.2)
         then fmtDuration
                (B64.mul
                   (B64.mul
                      (B64.div
                         (Qmax 0 (B64.sub (nextStageNeed (growth state)) (growth state)))
                         rate) 3600) 1000)
         else Some "— (needs care)").
  { unfold renderNext, rate, renderRate, idx. cbv zeta.
    destruct (_ =? _)%nat; [reflexivity |].
    destruct (Qgtb _ _); reflexivity. }
  rewrite Hunfold. clear Hunfold.
  split; [| split].
  - intros Hlast. apply Nat.eqb_eq in Hlast. now rewrite Hlast.
  - intros Hlast Hrate. apply Nat.eqb_neq in Hlast. rewrite Hlast.
    assert (Hgt : Qgtb rate (B64.fl 0.2) = false) by (apply Qltb_ge; exact Hrate).
    now rewrite Hgt.
  - intros Hlast Hrate hours.
    destruct (next_threshold_ahead (growth state) Hlast) as [Hnext Hahead].
    fold idx in Hnext, Hahead.
    apply Nat.eqb_neq in Hlast. rewrite Hlast.
    assert (Hgt : Qgtb rate (B64.fl 0.2) = true) by (apply Qltb_lt; exact Hrate).
    rewrite Hgt, Hnext.
    set (next := need (stageAt (idx + 1))) in *.
    assert (Hnext230 : next <= 230) by apply thresholds_at_most_230.
    (* the difference is positive, so its double is not below 0 *)
    assert (Hdiff : 0 <= next - growth state) by lra.
    destruct (fl_bounds _ Hdiff) as [Hrem0 Hrem1].
    fold (B64.sub next (growth state)) in Hrem0, Hrem1.
    set (rem := B64.sub next (growth state)) in *.
    assert (Hmax : Qmax 0 rem == rem) by (apply Q.max_r; exact Hrem0).
    assert (Hhours : B64.div (Qmax 0 rem) rate = hours).
    { unfold hours, B64.div. apply fl_compat. now rewrite Hmax. }
    rewrite Hhours.
    (* the milliseconds stay far below 10^15 *)
    assert (Hfifth : 1 # 8 <= B64.fl 0.2).
    { apply Qle_bool_iff. vm_compute. reflexivity. }
    assert (Hrate0 : 0 < rate) by lra.
    assert (Hq0 : 0 <= rem / rate) by (apply Qle_shift_div_l; lra).
    assert (Hq1 : rem / rate <= 3688) by (apply Qle_shift_div_r; lra).
    destruct (fl_bounds _ Hq0) as [Hh0 Hh1].
    fold (B64.div rem rate) in Hh0, Hh1. fold hours in Hh0, Hh1.
    assert (Hp0 : 0 <= hours * 3600) by lra.
    destruct (fl_bounds _ Hp0) as [Hm0 Hm1].
    fold (B64.mul hours 3600) in Hm0, Hm1.
    set (minutes := B64.mul hours 3600) in *.
    assert (Hr0 : 0 <= minutes * 1000) by lra.
    destruct (fl_bounds _ Hr0) as [Hms0 Hms1].
    fold (B64.mul minutes 1000) in Hms0, Hms1.
    destruct (fmtDuration_defined (B64.mul minutes 1000)) as [text Htext];
      [exact Hms0 | lra |].
    exists text. split; exact Htext.
Qed.

Lemma next_stage_estimate_witness :
  renderNext 20 (mkPlant 0 0 230 70 85 0 10) = Some "Max stage" /\
  renderNext 20 (mkPlant 0 0 20 1 85 0 10) = Some "— (needs care)" /\
  (exists text,
     fmtDuration
       (B64.mul
          (B64.mul
             (B64.div (B64.sub (need (stageAt 1)) 0)
                      (renderRate 20 (mkPlant 0 0 0 8 85 0 10))) 3600) 1000)
     = Some text /\
     renderNext 20 (mkPlant 0 0 0 8 85 0 10) = Some text).
Proof.
  assert (Hvalid : forall g hy, 0 <= g -> 0 <= hy -> hy <= 100 ->
                     validState (mkPlant 0 0 g hy 85 0 10)).
  { intros g hy Hg Hy0 Hy1. unfold validState, inRange; cbn.
    repeat split; try assumption; discriminate. }
  assert (Hdouble : forall x, Qeq_bool (B64.fl x) x = true -> B64.isDouble x).
  { intros x H. now apply Qeq_bool_iff. }
  split; [| split].
  - apply (next_stage_estimate 20 (mkPlant 0 0 230 70 85 0 10)).
    + apply Hvalid; discriminate.
    + apply Hdouble. vm_compute. reflexivity.
    + apply Hdouble. vm_compute. reflexivity.
    + apply Hdouble. vm_compute. reflexivity.
    + reflexivity.
  - apply (next_stage_estimate 20 (mkPlant 0 0 20 1 85 0 10)).
    + apply Hvalid; discriminate.
    + apply Hdouble. vm_compute. reflexivity.
    + apply Hdouble. vm_compute. reflexivity.
    + apply Hdouble. vm_compute. reflexivity.
    + discriminate.
    + apply Qle_bool_iff. vm_compute. reflexivity.
  - apply (next_stage_estimate 20 (mkPlant 0 0 0 8 85 0 10)).
    + apply Hvalid; discriminate.
    + apply Hdouble. vm_compute. reflexivity.
    + apply Hdouble. vm_compute. reflexivity.
    + apply Hdouble. vm_compute. reflexivity.
    + discriminate.
    + apply Qltb_lt. vm_compute. reflexivity.
Defined.


(** ** Colours *)

Lemma palette_cases (state : PlantState) :
  0 <= health state -> health state <= 100 ->
  palette state =
  if Qgtb (health state) 60 then lushPair
  else if Qgtb (health state) 35 then stressedPair else wiltingPair.
Proof.
  intros H0 H1. unfold palette, greenOf, darkOf, Qgtb. cbv zeta.
  rewrite (Qltb_compat 60 60 (Qeq_refl 60) _ _ (clamp_inside _ 0 100 H0 H1)).
  rewrite (Qltb_compat 35 35 (Qeq_refl 35) _ _ (clamp_inside _ 0 100 H0 H1)).
  destruct (Qltb 60 (health state)); [reflexivity |].
  destruct (Qltb 35 (health state)); reflexivity.
Qed.

(** C8, as amended.  For health in [0, 100] the colour pair follows three
    bands: above 60 the lush pair, above 35 and up to 60 the stressed pair,
    35 and below the wilting pair; the three pairs differ from one
    another. *)
Theorem palette_by_health_band :
  forall state : PlantState,
    0 <= health state ->
    health state <= 100 ->
    (60 < health state -> palette state = lushPair) /\
    (35 < health state /\ health state <= 60 -> palette state = stressedPair) /\
    (health state <= 35 -> palette state = wiltingPair) /\
    lushPair <> stressedPair /\ stressedPair <> wiltingPair /\ lushPair <> wiltingPair.
Proof.
  intros state H0 H1.
  rewrite (palette_cases state H0 H1). unfold Qgtb.
  repeat split; try discriminate.
  - intros H. apply Qltb_lt in H. now rewrite H.
  - intros [Hlo Hhi]. apply Qltb_ge in Hhi. apply Qltb_lt in Hlo.
    now rewrite Hhi, Hlo.
  - intros H.
    assert (H60 : health state <= 60) by lra.
    apply Qltb_ge in H, H60. now rewrite H60, H.
Qed.

Lemma palette_by_health_band_witness :
  palette (mkPlant 0 0 0 70 85 0 0) = lushPair /\
  palette (mkPlant 0 0 0 70 50 0 0) = stressedPair /\
  palette (mkPlant 0 0 0 70 35 0 0) = wiltingPair.
Proof.
  split; [| split].
  - apply (palette_by_health_band (mkPlant 0 0 0 70 85 0 0)); cbn; try discriminate.
    reflexivity.
  - apply (palette_by_health_band (mkPlant 0 0 0 70 50 0 0)); cbn; try discriminate.
    split; [reflexivity | discriminate].
  - apply (palette_by_health_band (mkPlant 0 0 0 70 35 0 0)); cbn; discriminate.
Defined.

(** C8, as worded, fails at health exactly 35: the value lies in the band
    written 35-60, yet the pair drawn is the wilting one. *)
Lemma health_35_breaks_worded_bands :
  0 <= health (mkPlant 0 0 0 70 35 0 0) /\
  health (mkPlant 0 0 0 70 35 0 0) <= 100 /\
  palette (mkPlant 0 0 0 70 35 0 0) = wiltingPair /\
  ~ bandsAsWorded (mkPlant 0 0 0 70 35 0 0).
Proof.
  split; [discriminate |]. split; [discriminate |]. split; [reflexivity |].
  intros (_ & Hmid & _).
  assert (H : palette (mkPlant 0 0 0 70 35 0 0) = stressedPair).
  { apply Hmid. cbn. split; discriminate. }
  discriminate H.
Qed.

(** ** Reproducible scenes *)

Lemma greenOf_compat (state1 state2 : PlantState) :
  health state1 == health state2 -> greenOf state1 = greenOf state2.
Proof.
  intros H. unfold greenOf, Qgtb. cbv zeta.
  assert (E60 : Qltb 60 (clamp (health state1) 0 100)
                = Qltb 60 (clamp (health state2) 0 100)) by now rewrite H.
  assert (E35 : Qltb 35 (clamp (health state1) 0 100)
                = Qltb 35 (clamp (health state2) 0 100)) by now rewrite H.
  now rewrite E60, E35.
Qed.

Lemma darkOf_compat (state1 state2 : PlantState) :
  health state1 == health state2 -> darkOf state1 = darkOf state2.
Proof.
  intros H. unfold darkOf, Qgtb. cbv zeta.
  assert (E60 : Qltb 60 (clamp (health state1) 0 100)
                = Qltb 60 (clamp (health state2) 0 100)) by now rewrite H.
  assert (E35 : Qltb 35 (clamp (health state1) 0 100)
                = Qltb 35 (clamp (health state2) 0 100)) by now rewrite H.
  now rewrite E60, E35.
Qed.

Lemma drawSparkle_compat (state1 state2 : PlantState) :
  health state1 == health state2 -> hydration state1 == hydration state2 ->
  drawSparkle state1 = drawSparkle state2.
Proof.
  intros Hh Hy. unfold drawSparkle, Qgtb. now rewrite Hh, Hy.
Qed.

Lemma initSeed_unfold (state : PlantState) :
  initSeed state =
  Z.lxor (Int32.toInt32 (createdAt state / 1000)) (Int32.toInt32 0x9e3779b9).
Proof.
  unfold initSeed, Int32.xor.
  destruct (createdAt state =? 0)%Z eqn:E; [| reflexivity].
  apply Z.eqb_eq in E. now rewrite E.
Qed.

(** C6.  The scene that [drawPlant] leaves in [#plant] is fixed by the stage
    index and by the state fields it reads (creation instant, health,
    hydration): whatever [#plant] held before, and however often it is
    called, equal inputs give the same list of pixels, vines included.  The
    generator starts every call from floor(createdAt / 1000) xor 0x9e3779b9
    as 32-bit integers.  The text renderer is reproducible in the same
    way. *)
Theorem drawPlant_is_reproducible :
  forall (stageIdx : nat) (state1 state2 : PlantState) (plant1 plant2 : list Pixel),
    createdAt state1 = createdAt state2 ->
    health state1 == health state2 ->
    hydration state1 == hydration state2 ->
    drawPlant stageIdx state1 plant1 = drawPlant stageIdx state2 plant2 /\
    drawPlant stageIdx state2 (drawPlant stageIdx state1 plant1)
      = drawPlant stageIdx state1 plant1 /\
    initSeed state1
      = Z.lxor (Int32.toInt32 (createdAt state1 / 1000)) (Int32.toInt32 0x9e3779b9) /\
    (forall (enabled : bool) (text1 text2 : string),
       TextMode.drawAsciiPlant stageIdx state1 enabled text1
       = TextMode.drawAsciiPlant stageIdx state2 enabled text2).
Proof.
  intros stageIdx state1 state2 plant1 plant2 Hc Hh Hy.
  assert (Hsame : forall p1 p2,
            drawPlant stageIdx state1 p1 = drawPlant stageIdx state2 p2).
  { intros p1 p2. unfold drawPlant. cbv zeta.
    rewrite (greenOf_compat _ _ Hh), (darkOf_compat _ _ Hh).
    rewrite (drawSparkle_compat _ _ Hh Hy).
    rewrite !initSeed_unfold, Hc. reflexivity. }
  split; [apply Hsame |].
  split; [symmetry; apply Hsame |].
  split; [apply initSeed_unfold |].
  intros enabled text1 text2.
  unfold TextMode.drawAsciiPlant, TextMode.plantGrid, TextMode.drawVines.
  now rewrite Hc.
Qed.

Lemma drawPlant_is_reproducible_witness :
  let state1 := newPlant 1700000000000 in
  let state2 := mkPlant 1700000000000 1700000360000 12 70 (170 # 2) 1700000000500 0 in
  drawPlant 5 state1 [] = drawPlant 5 state2 [mkPixel 0 0 "#000000"] /\
  drawPlant 5 state2 (drawPlant 5 state1 []) = drawPlant 5 state1 [] /\
  initSeed state1
    = Z.lxor (Int32.toInt32 (createdAt state1 / 1000)) (Int32.toInt32 0x9e3779b9) /\
  (forall (enabled : bool) (text1 text2 : string),
     TextMode.drawAsciiPlant 5 state1 enabled text1
     = TextMode.drawAsciiPlant 5 state2 enabled text2).
Proof.
  apply (drawPlant_is_reproducible 5 (newPlant 1700000000000)
           (mkPlant 1700000000000 1700000360000 12 70 (170 # 2) 1700000000500 0)).
  - reflexivity.
  - reflexivity.
  - reflexivity.
Defined.

(** ** Loading the saved state *)

Lemma loadState_returns (env : Platform) : exists v, loadState env = Returns v.
Proof.
  unfold loadState, tryCatch.
  destruct (getItem env LS_KEY) as [raw |]; [| now exists JNull].
  destruct (notRaw raw); [now exists JNull |].
  destruct raw as [s |]; [| now exists JNull].
  destruct (JSON_parse env s) as [v |]; [now exists v | now exists JNull].
Qed.

Lemma loadState_unusable (env : Platform) :
  recordUnusable env -> exists v, loadState env = Returns v /\ truthy v = false.
Proof.
  unfold loadState, tryCatch.
  intros [H | [H | [H | (raw & H & Hparse)]]]; rewrite H.
  - now exists JNull.
  - now exists JNull.
  - now exists JNull.
  - destruct (notRaw (Some raw)); [now exists JNull |].
    destruct Hparse as [Hp | (v & Hp & Hv)]; rewrite Hp.
    + now exists JNull.
    + now exists v.
Qed.

(** C10, as amended.  [loadState] never throws.  When the stored record is
    missing, unreadable, empty, not parseable, or parses to a falsy value,
    the state that [main] starts from is a freshly created plant: always in
    [plant.js], and in the later script whenever its read of the text-mode
    preference returns.  That read comes first and is not guarded: when it
    throws, the later [main] throws before it loads anything.  A record
    that parses to a truthy value is taken as the state as it is, with no
    check that it is a plant state. *)
Theorem unusable_record_falls_back_to_new_plant :
  forall (env : Platform) (t : Z),
    (exists v, loadState env = Returns v) /\
    (recordUnusable env ->
       initialState env t = Returns (plantObject (newPlant t))) /\
    (recordUnusable env ->
       forall pref, getItem env ASCII_KEY = Returns pref ->
       exists asciiMode,
         main_start env t = Returns (asciiMode, plantObject (newPlant t))) /\
    (getItem env ASCII_KEY = Throws -> main_start env t = Throws) /\
    (forall raw v,
       getItem env LS_KEY = Returns (Some raw) -> raw <> "" ->
       JSON_parse env raw = Returns v -> truthy v = true ->
       initialState env t = Returns v).
Proof.
  intros env t.
  assert (Hfresh : recordUnusable env ->
            initialState env t = Returns (plantObject (newPlant t))).
  { intros Hbad. unfold initialState.
    destruct (loadState_unusable env Hbad) as (v & Hload & Hv).
    now rewrite Hload, Hv. }
  split; [apply loadState_returns |]. split; [exact Hfresh |].
  split; [| split].
  - intros Hbad pref Hpref. unfold main_start.
    rewrite Hpref, (Hfresh Hbad). eauto.
  - intros Hpref. unfold main_start. now rewrite Hpref.
  - intros raw v Hget Hraw Hparse Hv.
    unfold initialState, loadState, tryCatch. rewrite Hget.
    assert (Hn : notRaw (Some raw) = false).
    { destruct raw; [congruence | reflexivity]. }
    now rewrite Hn, Hparse, Hv.
Qed.

Lemma unusable_record_falls_back_to_new_plant_witness :
  initialState truncatedStore 1700000000000
    = Returns (plantObject (newPlant 1700000000000)) /\
  (exists asciiMode,
     main_start truncatedStore 1700000000000
       = Returns (asciiMode, plantObject (newPlant 1700000000000))) /\
  initialState blockedStore 1700000000000
    = Returns (plantObject (newPlant 1700000000000)) /\
  main_start blockedStore 1700000000000 = Throws /\
  initialState emptyObjectStore 1700000000000 = Returns (JObj []).
Proof.
  assert (Htruncated : recordUnusable truncatedStore).
  { unfold recordUnusable. right. right. right.
    exists "{'growth':12,". split; [reflexivity |]. left. reflexivity. }
  assert (Hblocked : recordUnusable blockedStore).
  { unfold recordUnusable. left. reflexivity. }
  destruct (unusable_record_falls_back_to_new_plant truncatedStore 1700000000000)
    as (_ & Hfirst & Hlater & _ & _).
  destruct (unusable_record_falls_back_to_new_plant blockedStore 1700000000000)
    as (_ & Hfirst' & _ & Hthrows & _).
  destruct (unusable_record_falls_back_to_new_plant emptyObjectStore 1700000000000)
    as (_ & _ & _ & _ & Hkept).
  split; [exact (Hfirst Htruncated) |].
  split; [exact (Hlater Htruncated (Some "{'growth':12,") eq_refl) |].
  split; [exact (Hfirst' Hblocked) |].
  split; [exact (Hthrows eq_refl) |].
  apply (Hkept "{}"); [reflexivity | discriminate | reflexivity | reflexivity].
Defined.

(** C10, as worded, fails on a stored "{}": the text parses, the value is
    truthy, and startup keeps the empty object, which is no plant state,
    instead of a fresh plant. *)
Lemma empty_object_record_is_kept :
  ~ representsPlant (JObj []) /\
  loadState emptyObjectStore = Returns (JObj []) /\
  initialState emptyObjectStore 0 = Returns (JObj []) /\
  initialState emptyObjectStore 0 <> Returns (plantObject (newPlant 0)).
Proof.
  split.
  - intros [p Hp]. discriminate Hp.
  - repeat split. discriminate.
Qed.

(** ** Leaves *)

Lemma dbind_out {A B} (m : Draw A) (f : A -> Draw B) (seed : Z) :
  snd (dbind m f seed)
  = snd (m seed) ++ snd (f (fst (fst (m seed))) (snd (fst (m seed)))).
Proof.
  unfold dbind. destruct (m seed) as [[a seed1] out1]. cbn.
  destruct (f a seed1) as [[b seed2] out2]. reflexivity.
Qed.

Lemma pixel_eqb_refl (p : Pixel) : pixel_eqb p p = true.
Proof.
  unfold pixel_eqb. now rewrite !Z.eqb_refl, String.eqb_refl.
Qed.

Lemma hasPixel_In (scene : list Pixel) (p : Pixel) :
  In p scene -> hasPixel scene p = true.
Proof.
  intros H. unfold hasPixel. apply existsb_exists.
  exists p. split; [exact H | apply pixel_eqb_refl].
Qed.

Lemma hasLeaf_incl (scene : list Pixel) (green : string) (cy dir : Z) :
  incl (leafPixels green cy dir) scene -> hasLeaf scene green cy dir = true.
Proof.
  intros H. unfold hasLeaf. apply forallb_forall.
  intros p Hp. apply hasPixel_In, H, Hp.
Qed.

(** What [drawLeaves] appends, whatever the seed. *)
Lemma drawLeaves_out (stageIdx : nat) (green : string) (seed : Z) :
  snd (drawLeaves stageIdx green seed)
  = (if (2 <=? stageIdx)%nat
     then leafPixels green 12 (-1) ++ leafPixels green 11 1 else [])
    ++ (if (3 <=? stageIdx)%nat
        then leafPixels green 10 (-1) ++ leafPixels green 9 1 else [])
    ++ (if (4 <=? stageIdx)%nat
        then leafPixels green 8 (-1) ++ leafPixels green 7 1 else []).
Proof.
  unfold drawLeaves.
  destruct (2 <=? stageIdx)%nat, (3 <=? stageIdx)%nat, (4 <=? stageIdx)%nat;
    reflexivity.
Qed.

Lemma drawLeaves_slot (stageIdx : nat) (green : string) (seed : Z)
    (thr : nat) (cy dir : Z) :
  In (thr, cy, dir) pixelLeafSlots -> (thr <= stageIdx)%nat ->
  incl (leafPixels green cy dir) (snd (drawLeaves stageIdx green seed)).
Proof.
  intros Hslot Hthr p Hp. rewrite drawLeaves_out.
  destruct (Nat.leb_spec 2 stageIdx), (Nat.leb_spec 3 stageIdx),
           (Nat.leb_spec 4 stageIdx);
    cbn in Hslot; rewrite !in_app_iff;
    repeat (destruct Hslot as [Hslot | Hslot];
            [injection Hslot as <- <- <-; first [lia | tauto] |]);
    contradiction.
Qed.

(** The leaves are in the scene of both versions of [drawPlant]. *)
Lemma drawPlant_keeps_leaves (stageIdx : nat) (state : PlantState)
    (plant : list Pixel) :
  incl (snd (drawLeaves stageIdx (greenOf state) 0%Z))
       (drawPlant stageIdx state plant) /\
  incl (snd (drawLeaves stageIdx (greenOf state) 0%Z))
       (drawPlant_v1 stageIdx state plant).
Proof.
  split; intros p Hp; unfold drawPlant, drawPlant_v1; cbv zeta;
    rewrite app_nil_l, !dbind_out, !in_app_iff;
    right; right; left;
    rewrite drawLeaves_out in Hp |- *; exact Hp.
Qed.

Lemma palette_three (state : PlantState) :
  palette state = lushPair \/ palette state = stressedPair \/
  palette state = wiltingPair.
Proof.
  unfold palette, greenOf, darkOf. cbv zeta.
  destruct (Qgtb _ 60); [now left |].
  destruct (Qgtb _ 35); [now right; left | now right; right].
Qed.

Lemma pixel_leaves_from_threshold (stageIdx : nat) (state : PlantState)
    (plant : list Pixel) :
  Forall (fun '(thr, cy, dir) =>
            hasLeaf (drawPlant stageIdx state plant) (greenOf state) cy dir
            = (thr <=? stageIdx)%nat /\
            hasLeaf (drawPlant_v1 stageIdx state plant) (greenOf state) cy dir
            = (thr <=? stageIdx)%nat)
         pixelLeafSlots.
Proof.
  apply Forall_forall. intros [[thr cy] dir] Hslot.
  destruct (Nat.leb_spec thr stageIdx) as [Hthr | Hthr].
  - destruct (drawPlant_keeps_leaves stageIdx state plant) as [H2 H1].
    split; apply hasLeaf_incl; intros p Hp; [apply H2 | apply H1];
      apply (drawLeaves_slot stageIdx _ _ thr cy dir Hslot Hthr p Hp).
  - assert (Hs : (stageIdx <= 3)%nat).
    { cbn in Hslot.
      repeat (destruct Hslot as [Hslot | Hslot];
              [injection Hslot as <- <- <-; lia |]); contradiction. }
    unfold drawPlant, drawPlant_v1, drawSparkle. cbv zeta.
    pose proof (palette_three state) as Hpal. unfold palette in Hpal.
    set (green := greenOf state) in *. set (dark := darkOf state) in *.
    set (sparkle := (Qgtb _ 90 && Qgtb _ 70)%bool).
    set (seed := initSeed state).
    clearbody green dark sparkle seed.
    destruct stageIdx as [| [| [| [| s]]]]; [| | | | lia];
      cbn in Hslot;
      repeat (destruct Hslot as [Hslot | Hslot];
              [injection Hslot as <- <- <-; try lia;
               destruct Hpal as [Hpal | [Hpal | Hpal]];
               injection Hpal as -> ->; destruct sparkle;
               vm_compute; split; reflexivity |]);
      contradiction.
Qed.

(** Cells of the text grid that a statement leaves alone. *)
Section Frames.

Import TextMode.

Lemma nth_setNth_other {A} (n m : nat) (a d : A) (l : list A) :
  n <> m -> nth n (setNth m a l) d = nth n l d.
Proof.
  revert n m. induction l as [| h l IH]; intros n m Hnm; [now destruct m |].
  destruct m as [| m], n as [| n]; cbn; try reflexivity; try congruence.
  apply IH. congruence.
Qed.

Lemma nth_setNth_same {A} (n : nat) (a d : A) (l : list A) :
  (n < List.length l)%nat -> nth n (setNth n a l) d = a.
Proof.
  revert n. induction l as [| h l IH]; intros n Hn; [cbn in Hn; lia |].
  destruct n as [| n]; [reflexivity |]. cbn. apply IH. cbn in Hn. lia.
Qed.

Lemma setNth_beyond {A} (n : nat) (a : A) (l : list A) :
  (List.length l <= n)%nat -> setNth n a l = l.
Proof.
  revert n. induction l as [| h l IH]; intros n Hn; [now destruct n |].
  destruct n as [| n]; [cbn in Hn; lia |]. cbn. f_equal. apply IH. cbn in Hn. lia.
Qed.

Lemma assign_frame (x y x' y' : nat) (ch : ascii) (grid : Grid) :
  x <> x' \/ y <> y' ->
  nth x (nth y (assign x' y' ch grid) []) " "%char = nth x (nth y grid []) " "%char.
Proof.
  intros Hne. unfold assign.
  destruct (Nat.eq_dec y y') as [-> | Hy].
  - destruct (Nat.lt_ge_cases y' (List.length grid)) as [Hin | Hout].
    + rewrite nth_setNth_same by exact Hin.
      apply nth_setNth_other. destruct Hne; congruence.
    + now rewrite setNth_beyond by exact Hout.
  - now rewrite nth_setNth_other by exact Hy.
Qed.

Lemma put_frame (x y x' y' : Z) (ch : ascii) (grid : Grid) :
  x <> x' \/ y <> y' -> cell (put x' y' ch grid) x y = cell grid x y.
Proof.
  intros Hne. unfold cell, put.
  destruct ((x <? 0) || (y <? 0))%Z eqn:Hneg; [reflexivity |].
  destruct ((x' <? 0) || (y' <? 0) || (x' >=? W) || (y' >=? H))%Z eqn:Hout;
    [reflexivity |].
  apply assign_frame. lia.
Qed.

Lemma keeps_skip (x y : Z) : keeps x y skip.
Proof. intros grid. reflexivity. Qed.

Lemma keeps_seq2 (x y : Z) (p q : Paint) :
  keeps x y p -> keeps x y q -> keeps x y (seq2 p q).
Proof.
  intros Hp Hq grid. unfold seq2. now rewrite Hq, Hp.
Qed.

Lemma keeps_put (x y x' y' : Z) (ch : ascii) :
  x <> x' \/ y <> y' -> keeps x y (put x' y' ch).
Proof. intros Hne grid. now apply put_frame. Qed.

Lemma keeps_pwhen (x y : Z) (b : bool) (p : Paint) :
  keeps x y p -> keeps x y (pwhen b p).
Proof. intros Hp. destruct b; [exact Hp | apply keeps_skip]. Qed.

Lemma keeps_pfor {A} (x y : Z) (l : list A) (body : A -> Paint) :
  (forall a, In a l -> keeps x y (body a)) -> keeps x y (pfor l body).
Proof.
  induction l as [| a l IH]; intros Hbody; [apply keeps_skip |].
  cbn. apply keeps_seq2.
  - apply Hbody. now left.
  - apply IH. intros b Hb. apply Hbody. now right.
Qed.

(** The left vine stays left of column 15 and the right vine right of
    column 17, so neither reaches the two columns next to the stem. *)
Lemma curl_left_keeps (n : nat) (i x y cx cy : Z) :
  (x <= 14 \/ (x = 15 /\ Z.rem i 2 = 0))%Z -> (15 <= cx)%Z ->
  keeps cx cy (curlLoop (-1) n i x y).
Proof.
  revert i x y. induction n as [| n IH]; intros i x y Hx Hcx;
    [apply keeps_skip |].
  cbn [curlLoop]. cbv zeta.
  set (x1 := if (Z.rem i 2 =? 0)%Z then (x + -1)%Z else x).
  assert (Hx1 : (x1 <= 14)%Z).
  { unfold x1. destruct (Z.rem i 2 =? 0)%Z eqn:E; [lia |].
    apply Z.eqb_neq in E. lia. }
  apply keeps_seq2; [apply keeps_put; lia |].
  apply keeps_seq2; [apply keeps_pwhen, keeps_put; lia |].
  apply IH; [left; exact Hx1 | exact Hcx].
Qed.

Lemma curl_right_keeps (n : nat) (i x y cx cy : Z) :
  (18 <= x \/ (x = 17 /\ Z.rem i 2 = 0))%Z -> (cx <= 17)%Z ->
  keeps cx cy (curlLoop 1 n i x y).
Proof.
  revert i x y. induction n as [| n IH]; intros i x y Hx Hcx;
    [apply keeps_skip |].
  cbn [curlLoop]. cbv zeta.
  set (x1 := if (Z.rem i 2 =? 0)%Z then (x + 1)%Z else x).
  assert (Hx1 : (18 <= x1)%Z).
  { unfold x1. destruct (Z.rem i 2 =? 0)%Z eqn:E; [lia |].
    apply Z.eqb_neq in E. lia. }
  apply keeps_seq2; [apply keeps_put; lia |].
  apply keeps_seq2; [apply keeps_pwhen, keeps_put; lia |].
  apply IH; [left; exact Hx1 | exact Hcx].
Qed.

Lemma drawVines_keeps (stageIdx : nat) (state : PlantState) (cx cy : Z) :
  (15 <= cx <= 17)%Z -> keeps cx cy (TextMode.drawVines stageIdx state).
Proof.
  intros Hcx. unfold TextMode.drawVines, curl. cbv zeta.
  apply keeps_pwhen, keeps_seq2.
  - apply curl_left_keeps; [right; split; reflexivity | lia].
  - apply curl_right_keeps; [right; split; reflexivity | lia].
Qed.

Lemma drawFlower_keeps (stageIdx : nat) (cx cy : Z) :
  (6 <= cy)%Z -> keeps cx cy (TextMode.drawFlower stageIdx).
Proof.
  intros Hcy. unfold TextMode.drawFlower. cbv zeta.
  destruct (Nat.leb_spec 5 stageIdx) as [Hs | Hs]; [| apply keeps_skip].
  assert (Htop : TextMode.stemTopOf stageIdx = 3%Z).
  { unfold TextMode.stemTopOf. lia. }
  rewrite Htop. cbn [pwhen].
  apply keeps_seq2; [apply keeps_put; lia |].
  apply keeps_seq2; apply keeps_put; lia.
Qed.

Lemma drawTitle_keeps (stageIdx : nat) (cx cy : Z) :
  (1 <= cy)%Z -> keeps cx cy (drawTitle stageIdx).
Proof.
  intros Hcy. unfold drawTitle. cbv zeta.
  apply keeps_pfor. intros i _ grid. unfold cell.
  destruct ((cx <? 0) || (cy <? 0))%Z; [reflexivity |].
  apply assign_frame. lia.
Qed.

(** From stage 4 on, stem and leaves of the text scene no longer change. *)
Lemma stem_and_leaves_settled (stageIdx : nat) :
  (4 <= stageIdx)%nat ->
  TextMode.drawStem stageIdx = TextMode.drawStem 4 /\
  TextMode.drawLeaves stageIdx = TextMode.drawLeaves 4.
Proof.
  intros Hs. split.
  - unfold TextMode.drawStem, TextMode.stemTopOf.
    replace (Z.min (Z.of_nat stageIdx * 2) 8) with 8%Z by lia. reflexivity.
  - unfold TextMode.drawLeaves.
    replace (1 <=? stageIdx)%nat with true by (symmetry; apply Nat.leb_le; lia).
    replace (2 <=? stageIdx)%nat with true by (symmetry; apply Nat.leb_le; lia).
    replace (3 <=? stageIdx)%nat with true by (symmetry; apply Nat.leb_le; lia).
    reflexivity.
Qed.

End Frames.

Lemma text_leaves_from_threshold (stageIdx : nat) (state : PlantState) :
  Forall (fun '(thr, y, dir) =>
            hasLeafGlyph (TextMode.plantGrid stageIdx state) y dir
            = (thr <=? stageIdx)%nat)
         textLeafSlots.
Proof.
  destruct (Nat.lt_ge_cases stageIdx 4) as [Hs | Hs].
  - destruct stageIdx as [| [| [| [| s]]]]; [| | | | lia];
      vm_compute; repeat constructor.
  - apply Forall_forall. intros [[thr y] dir] Hslot.
    assert (Hbox : (15 <= TextMode.stemX + dir <= 17 /\ 6 <= y)%Z /\ (thr <= 3)%nat).
    { cbn in Hslot.
      repeat (destruct Hslot as [Hslot | Hslot];
              [injection Hslot as <- <- <-; unfold TextMode.stemX; lia |]);
      contradiction. }
    destruct Hbox as [[Hx Hy] Hthr].
    unfold hasLeafGlyph, TextMode.plantGrid, TextMode.seq2.
    rewrite (drawTitle_keeps stageIdx) by lia.
    rewrite (drawFlower_keeps stageIdx) by lia.
    rewrite (drawVines_keeps stageIdx state) by lia.
    destruct (stem_and_leaves_settled stageIdx Hs) as [-> ->].
    replace (thr <=? stageIdx)%nat with true by (symmetry; apply Nat.leb_le; lia).
    cbn in Hslot.
    repeat (destruct Hslot as [Hslot | Hslot];
            [injection Hslot as <- <- <-; vm_compute; reflexivity |]);
    contradiction.
Qed.

(** C9, as amended.  Pixel renderer (both versions): each of the six leaves
    is in the scene exactly from its stage on, the pairs starting at stage
    index 2, 3 and 4.  Text renderer: the leaf glyph next to the stem is in
    the grid exactly from its stage on, the pairs starting at stage index 1,
    2 and 3.  In both the sides alternate left, right, and a leaf that is
    there at one stage is there at every later stage. *)
Theorem leaves_by_stage :
  forall (stageIdx later : nat) (state : PlantState) (plant plant' : list Pixel),
    (stageIdx <= later)%nat ->
    Forall (fun '(thr, cy, dir) =>
              hasLeaf (drawPlant stageIdx state plant) (greenOf state) cy dir
              = (thr <=? stageIdx)%nat /\
              hasLeaf (drawPlant_v1 stageIdx state plant) (greenOf state) cy dir
              = (thr <=? stageIdx)%nat)
           pixelLeafSlots /\
    Forall (fun '(thr, y, dir) =>
              hasLeafGlyph (TextMode.plantGrid stageIdx state) y dir
              = (thr <=? stageIdx)%nat)
           textLeafSlots /\
    map (fun slot => fst (fst slot)) pixelLeafSlots = [2; 2; 3; 3; 4; 4]%nat /\
    map (fun slot => fst (fst slot)) textLeafSlots = [1; 1; 2; 2; 3; 3]%nat /\
    map sideOf pixelLeafSlots = [-1; 1; -1; 1; -1; 1]%Z /\
    map sideOf textLeafSlots = [-1; 1; -1; 1; -1; 1]%Z /\
    Forall (fun '(_, cy, dir) =>
              (hasLeaf (drawPlant stageIdx state plant) (greenOf state) cy dir = true ->
               hasLeaf (drawPlant later state plant') (greenOf state) cy dir = true) /\
              (hasLeaf (drawPlant_v1 stageIdx state plant) (greenOf state) cy dir = true ->
               hasLeaf (drawPlant_v1 later state plant') (greenOf state) cy dir = true))
           pixelLeafSlots /\
    Forall (fun '(_, y, dir) =>
              hasLeafGlyph (TextMode.plantGrid stageIdx state) y dir = true ->
              hasLeafGlyph (TextMode.plantGrid later state) y dir = true)
           textLeafSlots.
Proof.
  intros stageIdx later state plant plant' Hlater.
  pose proof (pixel_leaves_from_threshold stageIdx state plant) as Hpx.
  pose proof (pixel_leaves_from_threshold later state plant') as Hpx'.
  pose proof (text_leaves_from_threshold stageIdx state) as Htx.
  pose proof (text_leaves_from_threshold later state) as Htx'.
  assert (Hmono : forall thr, (thr <=? stageIdx)%nat = true -> (thr <=? later)%nat = true).
  { intros thr H. apply Nat.leb_le. apply Nat.leb_le in H. lia. }
  split; [exact Hpx |]. split; [exact Htx |].
  do 4 (split; [reflexivity |]).
  rewrite Forall_forall in Hpx, Hpx', Htx, Htx'.
  split; apply Forall_forall.
  - intros [[thr cy] dir] Hslot.
    destruct (Hpx _ Hslot) as [H2 H1]. destruct (Hpx' _ Hslot) as [H2' H1'].
    rewrite H2, H1, H2', H1'. split; apply Hmono.
  - intros [[thr y] dir] Hslot.
    rewrite (Htx _ Hslot), (Htx' _ Hslot). apply Hmono.
Qed.

Lemma leaves_by_stage_witness :
  hasLeaf (drawPlant 2 (newPlant 0) []) (greenOf (newPlant 0)) 12 (-1) = true /\
  hasLeaf (drawPlant 5 (newPlant 0) []) (greenOf (newPlant 0)) 12 (-1) = true /\
  hasLeafGlyph (TextMode.plantGrid 2 (newPlant 0)) 9 (-1) = true /\
  hasLeafGlyph (TextMode.plantGrid 5 (newPlant 0)) 9 (-1) = true.
Proof.
  assert (H25 : (2 <= 5)%nat) by lia.
  destruct (leaves_by_stage 2 5 (newPlant 0) [] [] H25)
    as (Hpx & Htx & _ & _ & _ & _ & Hpx' & Htx').
  rewrite Forall_forall in Hpx, Htx, Hpx', Htx'.
  assert (Hslot : In (2%nat, 12%Z, (-1)%Z) pixelLeafSlots) by (cbn; tauto).
  assert (Hslot' : In (2%nat, 9%Z, (-1)%Z) textLeafSlots) by (cbn; tauto).
  pose proof (proj1 (Hpx _ Hslot)) as H2.
  pose proof (Htx _ Hslot') as T2.
  split; [exact H2 |].
  split; [exact (proj1 (Hpx' _ Hslot) H2) |].
  split; [exact T2 |].
  exact (Htx' _ Hslot' T2).
Defined.

(** C9, as worded, fails in the text renderer: the first pair of leaf glyphs
    is drawn at stage index 1 already (and not at 0), one stage before the
    threshold 2 given for both renderers. *)
Lemma text_leaves_start_one_stage_early :
  hasLeafGlyph (TextMode.plantGrid 0 (newPlant 0)) 11 (-1) = false /\
  hasLeafGlyph (TextMode.plantGrid 1 (newPlant 0)) 11 (-1) = true /\
  hasLeafGlyph (TextMode.plantGrid 1 (newPlant 0)) 10 1 = true /\
  ~ Forall (fun '(thr, y, dir) =>
              hasLeafGlyph (TextMode.plantGrid 1 (newPlant 0)) y dir
              = (thr <=? 1)%nat)
           textLeafSlotsAsWorded.
Proof.
  split; [reflexivity |]. split; [reflexivity |]. split; [reflexivity |].
  intros H. inversion H as [| slot slots Hhead _]. discriminate Hhead.
Qed.

(** A remark on the text renderer at stage index 4 and above: the first
    cells of the two vines land on the outer cell of the right leaf of row
    10 and of the left leaf of row 9, so those two dashes give way to vine
    glyphs while the glyphs next to the stem stay. *)
Remark text_leaf_dash_under_vine :
  TextMode.cell (TextMode.plantGrid 3 (newPlant 0)) 18 10 = "-"%char /\
  TextMode.cell (TextMode.plantGrid 4 (newPlant 0)) 18 10 = TextMode.backslash /\
  TextMode.cell (TextMode.plantGrid 3 (newPlant 0)) 14 9 = "-"%char /\
  TextMode.cell (TextMode.plantGrid 4 (newPlant 0)) 14 9 = "/"%char.
Proof. repeat split. Qed.

(** ** Worked values *)

(** The generator on seed 1: the three shifts give 270369. *)
Example rand_from_seed_1 :
  snd (fst (rand 1%Z)) = 270369%Z /\
  fst (fst (rand 1%Z)) == 270369 / 4294967296.
Proof. split; reflexivity. Qed.

(** A plant created at 1,700,000,000,000 ms: 1700000000 xor 0x9e3779b9 is
    0xfb6488b9, a negative 32-bit integer. *)
Example initSeed_of_2023_plant :
  initSeed (newPlant 1700000000000) = (-77297479)%Z.
Proof. reflexivity. Qed.

Example stage_rows :
  map stageFromGrowth [0; 14.9; 15; 149.9; 150; 230; 1000]
  = [0; 0; 1; 3; 4; 5; 5]%nat.
Proof. reflexivity. Qed.

Example durations :
  map fmtDuration [59000; 125000; 3600000; 90061000]
  = [Some "59s"; Some "2m"; Some "1h 0m"; Some "1d 1h"].
Proof. vm_compute. reflexivity. Qed.

(** A fresh plant needs 15 points at 5.25 points per hour. *)
Example new_plant_eta : renderNext 5 (newPlant 0) = Some "2h 51m".
Proof. vm_compute. reflexivity. Qed.

(** Where rounding shows.  At hydration 8 the rate is the double just above
    0.6, so 15 points take just under 25 hours.  At hydration 40 and
    health 68 they take just under 6 hours 15 minutes.  At hydration
    13.333333333333334 (the double) and health 17 the rate rounds to the
    double 0.2 and fails the test [rate > 0.2]. *)
Example rounding_in_the_status_line :
  renderNext 20 (mkPlant 0 0 0 8 85 0 10) = Some "1d 0h" /\
  renderNext 20 (mkPlant 0 0 0 40 68 0 10) = Some "6h 14m" /\
  renderNext 20 (mkPlant 0 0 0 (7505999378950827 # 562949953421312) 17 0 10)
  = Some "— (needs care)".
Proof. vm_compute. repeat split. Qed.

(** Watering at hydration 40 and health 50, ticked at once: 65 and 54. *)
Example water_at_40 :
  let state := onWater false 10 10 (mkPlant 0 10 5 40 50 0 0) in
  hydration state == 65 /\ health state == 54 /\ lastActionAt state = 10%Z.
Proof. repeat split. Qed.

(** Sunlight at instant 1000: the factor 1.35 is in the rate 29 minutes
    later and gone 31 minutes later. *)
Example sunlight_window :
  let state := onSun false 1000 1000 1000 (newPlant 1000) in
  growthRate (1000 + 29 * 60000) state == 1.35 * growthRate (1000 + 31 * 60000) state /\
  sunlightBoostUntil state = (1000 + 1800000)%Z.
Proof. repeat split. Qed.

(** * Further properties of the code *)

(** ** More on the simulation step *)

Lemma clamp_cases (n a b : Q) :
  a <= b ->
  (n <= a /\ clamp n a b == a) \/
  (a <= n /\ n <= b /\ clamp n a b == n) \/
  (b <= n /\ clamp n a b == b).
Proof.
  intros Hab.
  destruct (Qlt_le_dec n a) as [Hlo | Hlo].
  - left. split; [lra |]. unfold clamp.
    apply Q.max_l. apply Qle_trans with n; [apply Q.le_min_r | lra].
  - destruct (Qlt_le_dec b n) as [Hhi | Hhi].
    + right; right. split; [lra |]. unfold clamp.
      rewrite (Q.min_l b n) by lra. apply Q.max_r. exact Hab.
    + right; left. split; [exact Hlo |]. split; [exact Hhi |].
      apply clamp_inside; assumption.
Qed.

(** X2.  A clock that steps back: a tick whose reading [t] is before
    [lastTickAt] changes no quantity of a valid state but moves
    [lastTickAt] back to [t]; the next tick at the old instant then counts
    the gap as elapsed time. *)
Theorem clock_step_back_is_counted_later :
  forall (state : PlantState) (t : Z) (timeScale : Q),
    validState state ->
    (t < lastTickAt state)%Z ->
    0 <= timeScale ->
    let state' := tick t state timeScale in
    hydration state' == hydration state /\
    health state' == health state /\
    growth state' == growth state /\
    lastTickAt state' = t /\
    hydration (tick (lastTickAt state) state' timeScale)
    == clamp (hydration state
              - inject_Z (lastTickAt state - t) * timeScale / (1000 * 60 * 60) * 8)
             0 100.
Proof.
  intros state t timeScale (Hg & (Hy0 & Hy1) & (He0 & He1)) Ht Hs.
  assert (Hh : inject_Z (Z.max 0 (t - lastTickAt state)) * timeScale / (1000 * 60 * 60) == 0).
  { apply hours_zero. lia. }
  assert (Hhy : hydration (tick t state timeScale) == hydration state).
  { unfold tick; cbn [hydration]. rewrite Hh.
    setoid_replace (hydration state - 0 * 8) with (hydration state) by ring.
    apply clamp_inside; assumption. }
  cbv zeta. split; [exact Hhy |]. split; [| split; [| split]].
  - unfold tick; cbn [health]. rewrite Hh, Qmult_0_l, Qplus_0_r.
    apply clamp_inside; assumption.
  - unfold tick; cbn [growth]. rewrite Hh, Qmult_0_l, Qplus_0_r.
    apply Q.max_r. exact Hg.
  - reflexivity.
  - unfold tick at 1. cbn [hydration].
    change (lastTickAt (tick t state timeScale)) with t.
    replace (Z.max 0 (lastTickAt state - t)) with (lastTickAt state - t)%Z by lia.
    now rewrite Hhy.
Qed.

Lemma clock_step_back_is_counted_later_witness :
  let state := mkPlant 0 3600000 0 70 85 0 0 in
  let state' := tick 0 state 1 in
  hydration state' == hydration state /\
  health state' == health state /\
  growth state' == growth state /\
  lastTickAt state' = 0%Z /\
  hydration (tick (lastTickAt state) state' 1)
  == clamp (hydration state
            - inject_Z (lastTickAt state - 0) * 1 / (1000 * 60 * 60) * 8)
           0 100.
Proof.
  apply (clock_step_back_is_counted_later (mkPlant 0 3600000 0 70 85 0 0) 0 1).
  - unfold validState, inRange; cbn; repeat split; discriminate.
  - cbn; lia.
  - discriminate.
Defined.

(** X3.  Health follows the hydration left by the same tick around the set
    point 55: at 55 or above health does not fall, at 55 or below it does
    not rise. *)
Theorem health_trends_to_setpoint :
  forall (state : PlantState) (t : Z) (timeScale : Q),
    0 <= health state -> health state <= 100 ->
    0 <= timeScale ->
    let state' := tick t state timeScale in
    (55 <= hydration state' -> health state <= health state') /\
    (hydration state' <= 55 -> health state' <= health state).
Proof.
  intros state t timeScale He0 He1 Hs. cbv zeta.
  pose proof (hours_nonneg t state timeScale Hs) as Hh.
  unfold tick.
  cbn [createdAt lastTickAt growth hydration health lastActionAt sunlightBoostUntil].
  set (hours := inject_Z _ * timeScale / _) in *.
  set (hy := clamp (hydration state - hours * 8) 0 100).
  assert (H100 : 0 <= 100) by discriminate.
  split; intros Hhy.
  - assert (Hd : 0 <= hours * ((hy - 55) / 55 * 10)).
    { apply Qmult_le_0_compat; [exact Hh |].
      apply Qmult_le_0_compat; [| discriminate].
      apply Qle_shift_div_l; [reflexivity | lra]. }
    destruct (clamp_cases (health state + hours * ((hy - 55) / 55 * 10)) 0 100 H100)
      as [[? E] | [[? [? E]] | [? E]]]; rewrite E; lra.
  - assert (Hd : 0 <= hours * ((55 - hy) / 55 * 10)).
    { apply Qmult_le_0_compat; [exact Hh |].
      apply Qmult_le_0_compat; [| discriminate].
      apply Qle_shift_div_l; [reflexivity | lra]. }
    assert (Hneg : hours * ((hy - 55) / 55 * 10) == - (hours * ((55 - hy) / 55 * 10))).
    { field. }
    destruct (clamp_cases (health state + hours * ((hy - 55) / 55 * 10)) 0 100 H100)
      as [[? E] | [[? [? E]] | [? E]]]; rewrite E; lra.
Qed.

Lemma health_trends_to_setpoint_witness :
  let state' := tick 3600000 (newPlant 0) 1 in
  (55 <= hydration state' -> health (newPlant 0) <= health state') /\
  (hydration state' <= 55 -> health state' <= health (newPlant 0)).
Proof.
  apply (health_trends_to_setpoint (newPlant 0) 3600000 1); discriminate.
Defined.






(** X6.  One real minute with the fast-mode box checked does to hydration
    and health what one real hour does without it; growth agrees too when
    the sunlight boost is on or off at both readings. *)
Theorem fast_mode_is_sixty_times_faster :
  forall (state : PlantState) (t : Z),
    (lastTickAt state <= t)%Z ->
    let t60 := (lastTickAt state + 60 * (t - lastTickAt state))%Z in
    hydration (doTick true t state) == hydration (doTick false t60 state) /\
    health (doTick true t state) == health (doTick false t60 state) /\
    ((t <? sunlightBoostUntil state)%Z = (t60 <? sunlightBoostUntil state)%Z ->
     growth (doTick true t state) == growth (doTick false t60 state)).
Proof.
  intros state t Ht t60.
  assert (Hh : inject_Z (Z.max 0 (t - lastTickAt state)) * 60 / (1000 * 60 * 60)
               == inject_Z (Z.max 0 (t60 - lastTickAt state)) * 1 / (1000 * 60 * 60)).
  { unfold t60.
    replace (Z.max 0 (lastTickAt state + 60 * (t - lastTickAt state) - lastTickAt state))
      with (60 * Z.max 0 (t - lastTickAt state))%Z by lia.
    rewrite inject_Z_mult. field. }
  unfold doTick, tick.
  cbn [createdAt lastTickAt growth hydration health lastActionAt sunlightBoostUntil].
  set (h1 := inject_Z _ * 60 / _) in *. set (h2 := inject_Z _ * 1 / _) in *.
  split; [now rewrite Hh |]. split; [now rewrite Hh |].
  intros Hb. rewrite Hb, Hh. reflexivity.
Qed.

Lemma fast_mode_is_sixty_times_faster_witness :
  hydration (doTick true 60000 (newPlant 0)) == hydration (doTick false 3600000 (newPlant 0)) /\
  health (doTick true 60000 (newPlant 0)) == health (doTick false 3600000 (newPlant 0)) /\
  ((60000 <? 0)%Z = (3600000 <? 0)%Z ->
   growth (doTick true 60000 (newPlant 0)) == growth (doTick false 3600000 (newPlant 0))).
Proof.
  apply (fast_mode_is_sixty_times_faster (newPlant 0) 60000). cbn. lia.
Defined.

(** X7.  Watering with no time elapsed since the last tick: hydration goes
    up by 25 and health by 4, both capped at 100; growth stays; the action
    instant is recorded. *)
Theorem watering_adds_25_and_4 :
  forall (state : PlantState) (fast : bool) (tAct : Z),
    validState state ->
    let state' := onWater fast tAct (lastTickAt state) state in
    hydration state' == Qmin 100 (hydration state + 25) /\
    health state' == Qmin 100 (health state + 4) /\
    growth state' == growth state /\
    lastActionAt state' = tAct.
Proof.
  intros state fast tAct (Hg & (Hy0 & Hy1) & (He0 & He1)). cbv zeta.
  unfold onWater, doTick, tick.
  cbn [createdAt lastTickAt growth hydration health lastActionAt sunlightBoostUntil].
  rewrite Z.sub_diag. change (Z.max 0 0) with 0%Z.
  set (scale := if fast then 60 else 1).
  assert (Hh : inject_Z 0 * scale / (1000 * 60 * 60) == 0) by (unfold Qdiv; ring).
  assert (H100 : 0 <= 100) by discriminate.
  assert (Hw : clamp (hydration state + 25) 0 100 == Qmin 100 (hydration state + 25)).
  { unfold clamp. apply Q.max_r. apply Q.min_glb; lra. }
  assert (Hv : clamp (health state + 4) 0 100 == Qmin 100 (health state + 4)).
  { unfold clamp. apply Q.max_r. apply Q.min_glb; lra. }
  destruct (clamp_bounds (hydration state + 25) 0 100 H100) as [Hw0 Hw1].
  destruct (clamp_bounds (health state + 4) 0 100 H100) as [Hv0 Hv1].
  repeat split.
  - rewrite Hh. rewrite <- Hw.
    setoid_replace (clamp (hydration state + 25) 0 100 - 0 * 8)
      with (clamp (hydration state + 25) 0 100) by ring.
    apply clamp_inside; assumption.
  - rewrite Hh, Qmult_0_l, Qplus_0_r. rewrite <- Hv.
    apply clamp_inside; assumption.
  - rewrite Hh, Qmult_0_l, Qplus_0_r. apply Q.max_r. exact Hg.
Qed.

Lemma watering_adds_25_and_4_witness :
  let state := mkPlant 0 10 5 40 98 0 0 in
  let state' := onWater false 12 (lastTickAt state) state in
  hydration state' == Qmin 100 (hydration state + 25) /\
  health state' == Qmin 100 (health state + 4) /\
  growth state' == growth state /\
  lastActionAt state' = 12%Z.
Proof.
  apply (watering_adds_25_and_4 (mkPlant 0 10 5 40 98 0 0) false 12).
  unfold validState, inRange; cbn; repeat split; discriminate.
Defined.

(** X8.  The sunlight button opens a window of 30 minutes from its first
    clock reading, replacing any earlier window: at a reading inside the
    window the growth rate is 1.35 times the rate at a reading outside. *)
Theorem sunlight_window_is_30_minutes :
  forall (state : PlantState) (fast : bool) (tBoost tAct tTick inside outside : Z),
    (inside < tBoost + 1800000)%Z ->
    (tBoost + 1800000 <= outside)%Z ->
    let state' := onSun fast tBoost tAct tTick state in
    sunlightBoostUntil state' = (tBoost + 1800000)%Z /\
    growthRate inside state' == 1.35 * growthRate outside state'.
Proof.
  intros state fast tBoost tAct tTick inside outside Hin Hout state'.
  assert (Hu : sunlightBoostUntil state' = (tBoost + 1800000)%Z) by reflexivity.
  split; [exact Hu |].
  unfold growthRate. rewrite Hu.
  apply Z.ltb_lt in Hin. apply Z.ltb_ge in Hout. rewrite Hin, Hout.
  set (base := BASE_GROWTH_PER_HOUR * _ * _). clearbody base.
  ring.
Qed.

Lemma sunlight_window_is_30_minutes_witness :
  let state' := onSun false 1000 1000 1000 (mkPlant 0 0 0 70 85 0 999999999) in
  sunlightBoostUntil state' = (1000 + 1800000)%Z /\
  growthRate (1000 + 29 * 60000) state' == 1.35 * growthRate (1000 + 31 * 60000) state'.
Proof.
  apply (sunlight_window_is_30_minutes (mkPlant 0 0 0 70 85 0 999999999)
           false 1000 1000 1000 (1000 + 29 * 60000) (1000 + 31 * 60000)); lia.
Defined.

(** ** Any sequence of events *)










(** ** Durations and the status line *)

Lemma Qfloor_lt_iff (x : Q) (k : Z) : (Qfloor x < k)%Z <-> x < inject_Z k.
Proof.
  split; intros H.
  - apply Qlt_le_trans with (inject_Z (Qfloor x + 1)); [apply Qlt_floor |].
    rewrite <- Zle_Qle. lia.
  - apply Z.lt_nge. intros Hk. apply (Qlt_not_le _ _ H).
    apply Qle_trans with (inject_Z (Qfloor x)); [| apply Qfloor_le].
    rewrite <- Zle_Qle. exact Hk.
Qed.

(** Below the half, [rne] rounds down. *)
Lemma rne_low_half (z : Q) :
  z - inject_Z (Qfloor z) < 1 # 2 -> B64.rne z = Qfloor z.
Proof.
  intros H. unfold B64.rne. cbv zeta.
  destruct (Qcompare _ _) eqn:E; [| reflexivity |].
  - apply Qeq_alt in E. lra.
  - apply Qgt_alt in E. lra.
Qed.

(** The spacing at [x] is 1 over a whole power of 2 when [x < 2^53]. *)
Lemma quantum_inverse (x : Q) :
  0 < x -> x < 2 ^ 53 ->
  exists M : Z, (1 <= M)%Z /\ B64.quantum x * inject_Z M == 1.
Proof.
  intros Hx Hlt.
  assert (He : (B64.ilog2 x - 52 <= 0)%Z).
  { pose proof (ilog2_lower x Hx) as Hl.
    destruct (Z_le_gt_dec (B64.ilog2 x) 52) as [H | H]; [lia |].
    exfalso. apply (Qlt_irrefl x).
    apply Qlt_le_trans with (2 ^ 53); [exact Hlt |].
    apply Qle_trans with (2 ^ B64.ilog2 x); [| exact Hl].
    apply Qpower_le_compat_l; [lia | discriminate]. }
  unfold B64.quantum.
  set (e := Z.max (B64.ilog2 x - 52) (-1074)).
  assert (He0 : (e <= 0)%Z) by (unfold e; lia).
  exists (2 ^ (- e))%Z. split.
  - pose proof (Z.pow_pos_nonneg 2 (- e) ltac:(lia) ltac:(lia)). lia.
  - rewrite Z_pow2_Q by lia. rewrite <- Qpower_plus by discriminate.
    replace (e + - e)%Z with 0%Z by lia. reflexivity.
Qed.

(** The spacing at [x] is at most [x / 2^52], or below 2^-10. *)
Lemma quantum_fine (x : Q) :
  0 < x -> B64.quantum x <= x * (2 ^ (-52)) \/ B64.quantum x <= 2 ^ (-10).
Proof.
  intros Hx. unfold B64.quantum.
  destruct (Z.max_spec (B64.ilog2 x - 52) (-1074)) as [[_ ->] | [_ ->]].
  - right. apply Qpower_le_compat_l; [lia | discriminate].
  - left. unfold Z.sub. rewrite Qpower_plus by discriminate.
    apply Qmult_le_compat_r; [apply ilog2_lower; exact Hx |].
    apply Qlt_le_weak. apply pow2_pos.
Qed.

(** Dividing a whole number below 2^53 by a whole number from 1 to 1000 in
    doubles and taking the floor gives the integer quotient: the rounding
    never reaches the next whole number. *)
Lemma floor_div_exact (a b : Z) :
  (0 <= a < 2 ^ 53)%Z -> (1 <= b <= 1000)%Z ->
  Qfloor (B64.div (inject_Z a) (inject_Z b)) = (a / b)%Z.
Proof.
  intros Ha Hb. unfold B64.div, B64.fl. cbv zeta.
  set (x := inject_Z a / inject_Z b).
  pose proof (Qred_correct x) as Hred.
  assert (HbQ : 1 <= inject_Z b).
  { change 1 with (inject_Z 1). rewrite <- Zle_Qle. lia. }
  assert (HbQ' : inject_Z b <= 1000).
  { change 1000 with (inject_Z 1000). rewrite <- Zle_Qle. lia. }
  assert (HaQ : 0 <= inject_Z a).
  { change 0 with (inject_Z 0). rewrite <- Zle_Qle. lia. }
  assert (HaQ' : inject_Z a < 2 ^ 53).
  { rewrite <- Z_pow2_Q by lia. rewrite <- Zlt_Qlt. lia. }
  set (k := (a / b)%Z).
  assert (Hk : (b * k <= a <= b * k + (b - 1))%Z).
  { unfold k. pose proof (Z.div_mod a b ltac:(lia)).
    pose proof (Z.mod_pos_bound a b ltac:(lia)). lia. }
  assert (Hk0 : (0 <= k)%Z) by (unfold k; apply Z.div_pos; lia).
  assert (Hxb : x * inject_Z b == inject_Z a) by (unfold x; field; lra).
  assert (Hlo : inject_Z k <= x).
  { unfold x. apply Qle_shift_div_l; [lra |].
    rewrite <- inject_Z_mult, <- Zle_Qle. lia. }
  assert (Hhi : x * inject_Z b <= (inject_Z k + 1) * inject_Z b - 1).
  { rewrite Hxb. apply Qle_trans with (inject_Z ((k + 1) * b - 1)).
    - rewrite <- Zle_Qle. lia.
    - unfold Z.sub. rewrite inject_Z_plus, inject_Z_mult, inject_Z_plus, inject_Z_opp.
      change (inject_Z 1) with 1. lra. }
  destruct (Qcompare (Qred x) 0) eqn:E.
  - apply Qeq_alt in E. rewrite Hred in E.
    assert (Hk' : (k <= 0)%Z).
    { rewrite Zle_Qle. change (inject_Z 0) with 0. lra. }
    change (Qfloor 0) with 0%Z. lia.
  - apply Qlt_alt in E. rewrite Hred in E.
    assert (0 <= x) by (unfold x; apply Qle_shift_div_l; lra).
    lra.
  - apply Qgt_alt in E.
    set (y := Qred x) in *.
    assert (Hy53 : y < 2 ^ 53).
    { rewrite Hred. apply Qle_lt_trans with (inject_Z a); [| exact HaQ'].
      unfold x. apply Qle_shift_div_r; [lra |].
      rewrite <- (Qmult_1_r (inject_Z a)) at 1.
      apply Qmult_le_l; [| exact HbQ].
      rewrite <- Hxb. apply Qmult_lt_0_compat; lra. }
    destruct (quantum_inverse y E Hy53) as (M & HM & HqM).
    pose proof (quantum_pos y) as Hq.
    unfold B64.roundPos.
    set (q := B64.quantum y) in *.
    assert (HMQ : 1 <= inject_Z M).
    { change 1 with (inject_Z 1). rewrite <- Zle_Qle. lia. }
    assert (Hz : y / q == y * inject_Z M).
    { apply Qmult_inj_r with q; [lra |].
      setoid_replace (y / q * q) with y by (field; lra).
      setoid_replace (y * inject_Z M * q) with (y * (q * inject_Z M)) by ring.
      rewrite HqM. ring. }
    (* the spacing times the divisor stays below 2 *)
    assert (Hqb : q * inject_Z b < 2).
    { destruct (quantum_fine y E) as [Hf | Hf]; fold q in Hf.
      - apply Qle_lt_trans with (y * 2 ^ (-52) * inject_Z b).
        + apply Qmult_le_compat_r; [exact Hf | lra].
        + setoid_replace (y * 2 ^ (-52) * inject_Z b)
            with ((x * inject_Z b) * 2 ^ (-52)) by (rewrite Hred; ring).
          rewrite Hxb.
          apply Qlt_le_trans with (2 ^ 53 * 2 ^ (-52)).
          * apply Qmult_lt_compat_r; [apply pow2_pos | exact HaQ'].
          * apply Qle_bool_iff. reflexivity.
      - apply Qle_lt_trans with (2 ^ (-10) * inject_Z b).
        + apply Qmult_le_compat_r; [exact Hf | lra].
        + apply Qle_lt_trans with (2 ^ (-10) * 1000).
          * apply Qmult_le_l; [apply pow2_pos | exact HbQ'].
          * reflexivity. }
    set (z := y / q) in *.
    set (N := B64.rne z).
    assert (HNlo : (k * M <= N)%Z).
    { destruct (rne_bounds z) as [Hl _]. fold N in Hl.
      apply Z.le_trans with (Qfloor z); [| exact Hl].
      rewrite <- (Qfloor_Z (k * M)). apply Qfloor_resp_le.
      rewrite Hz, inject_Z_mult. apply Qmult_le_compat_r; lra. }
    assert (HzM : z * (q * inject_Z b) <= (inject_Z k + 1) * inject_Z M * (q * inject_Z b) - 1).
    { rewrite Hz.
      setoid_replace (y * inject_Z M * (q * inject_Z b))
        with (x * inject_Z b * (q * inject_Z M)) by (rewrite Hred; ring).
      setoid_replace ((inject_Z k + 1) * inject_Z M * (q * inject_Z b))
        with ((inject_Z k + 1) * inject_Z b * (q * inject_Z M)) by ring.
      rewrite HqM. lra. }
    assert (Hqb0 : 0 < q * inject_Z b) by (apply Qmult_lt_0_compat; lra).
    set (c := q * inject_Z b) in *.
    set (top := (inject_Z k + 1) * inject_Z M) in *.
    assert (Htop : top == inject_Z ((k + 1) * M)).
    { unfold top. rewrite inject_Z_mult, inject_Z_plus. reflexivity. }
    assert (Hgap : z <= top - 1 / c).
    { apply Qmult_le_r with c; [exact Hqb0 |].
      setoid_replace ((top - 1 / c) * c) with (top * c - 1) by (field; lra).
      exact HzM. }
    assert (Hhalf : 1 # 2 < 1 / c).
    { apply Qlt_shift_div_l; [exact Hqb0 | lra]. }
    assert (HNhi : (N <= (k + 1) * M - 1)%Z).
    { assert (Hfl : (Qfloor z < (k + 1) * M)%Z).
      { apply Qfloor_lt_iff. rewrite <- Htop. lra. }
      destruct (rne_bounds z) as [_ Hu]. fold N in Hu.
      destruct (Z.eq_dec (Qfloor z) ((k + 1) * M - 1)) as [Heq | Hne]; [| lia].
      unfold N. rewrite rne_low_half; [lia |].
      rewrite Heq. unfold Z.sub. rewrite inject_Z_plus, inject_Z_opp, <- Htop.
      change (inject_Z 1) with 1. lra. }
    (* back to the quotient *)
    assert (HNq : inject_Z N * q * inject_Z M == inject_Z N).
    { setoid_replace (inject_Z N * q * inject_Z M)
        with (inject_Z N * (q * inject_Z M)) by ring.
      rewrite HqM. ring. }
    assert (Hres0 : inject_Z k <= inject_Z N * q).
    { apply Qmult_le_r with (inject_Z M); [lra |].
      rewrite HNq, <- inject_Z_mult, <- Zle_Qle. exact HNlo. }
    assert (Hres1 : inject_Z N * q < inject_Z (k + 1)).
    { apply Qmult_lt_r with (inject_Z M); [lra |].
      rewrite HNq, <- inject_Z_mult, <- Zlt_Qlt. lia. }
    apply Z.le_antisymm.
    + apply Z.lt_succ_r. apply Qfloor_lt_iff. exact Hres1.
    + rewrite <- (Qfloor_Z k). apply Qfloor_resp_le. exact Hres0.
Qed.

(** X11.  [fmtDuration] on a whole number of milliseconds from 0 up to
    (not including) 2^53, which is what the age line passes: the four
    divisions, each rounded to a double before its floor, give the whole
    seconds, minutes, hours and days of integer division, and the text
    shows the coarsest unit that is not zero with at most one finer unit:
    seconds below one minute, minutes below one hour, hours (1 to 23) and
    minutes (0 to 59) below one day, days and hours (0 to 23) from one day
    on. *)
Theorem fmtDuration_picks_the_coarsest_unit :
  forall ms : Z,
    (0 <= ms < 2 ^ 53)%Z ->
    let s := (ms / 1000)%Z in
    let m := (s / 60)%Z in
    let h := (m / 60)%Z in
    let d := (h / 24)%Z in
    ((ms < 60000)%Z ->
       fmtDuration (inject_Z ms) = Some (showZ s ++ "s")%string /\
       (0 <= s <= 59)%Z) /\
    ((60000 <= ms < 3600000)%Z ->
       fmtDuration (inject_Z ms) = Some (showZ m ++ "m")%string /\
       (1 <= m <= 59)%Z) /\
    ((3600000 <= ms < 86400000)%Z ->
       fmtDuration (inject_Z ms)
         = Some (showZ h ++ "h " ++ showZ (m mod 60) ++ "m")%string /\
       (1 <= h <= 23)%Z /\ (0 <= m mod 60 <= 59)%Z) /\
    ((86400000 <= ms)%Z ->
       fmtDuration (inject_Z ms)
         = Some (showZ d ++ "d " ++ showZ (h mod 24) ++ "h")%string /\
       (1 <= d)%Z /\ (0 <= h mod 24 <= 23)%Z).
Proof.
  intros ms Hms s m h d.
  assert (Hs : (0 <= s <= ms)%Z /\ (1000 * s <= ms < 1000 * s + 1000)%Z).
  { unfold s. pose proof (Z.div_mod ms 1000 ltac:(lia)).
    pose proof (Z.mod_pos_bound ms 1000 ltac:(lia)). lia. }
  assert (Hm : (0 <= m <= s)%Z /\ (60 * m <= s < 60 * m + 60)%Z).
  { unfold m. pose proof (Z.div_mod s 60 ltac:(lia)).
    pose proof (Z.mod_pos_bound s 60 ltac:(lia)). lia. }
  assert (Hh : (0 <= h <= m)%Z /\ (60 * h <= m < 60 * h + 60)%Z).
  { unfold h. pose proof (Z.div_mod m 60 ltac:(lia)).
    pose proof (Z.mod_pos_bound m 60 ltac:(lia)). lia. }
  assert (Hd : (0 <= d <= h)%Z /\ (24 * d <= h < 24 * d + 24)%Z).
  { unfold d. pose proof (Z.div_mod h 24 ltac:(lia)).
    pose proof (Z.mod_pos_bound h 24 ltac:(lia)). lia. }
  assert (Hm60 : (0 <= m mod 60 <= 59)%Z).
  { pose proof (Z.mod_pos_bound m 60 ltac:(lia)). lia. }
  assert (Hh24 : (0 <= h mod 24 <= 23)%Z).
  { pose proof (Z.mod_pos_bound h 24 ltac:(lia)). lia. }
  assert (Hfmt : fmtDuration (inject_Z ms) =
            if (d >? 0)%Z then Some (showZ d ++ "d " ++ showZ (h mod 24) ++ "h")%string
            else if (h >? 0)%Z then Some (showZ h ++ "h " ++ showZ (m mod 60) ++ "m")%string
            else if (m >? 0)%Z then Some (showZ m ++ "m")%string
            else Some (showZ s ++ "s")%string).
  { unfold fmtDuration. cbv zeta.
    change (B64.div (inject_Z ms) 1000) with (B64.div (inject_Z ms) (inject_Z 1000)).
    rewrite (floor_div_exact ms 1000) by lia. fold s.
    change (B64.div (inject_Z s) 60) with (B64.div (inject_Z s) (inject_Z 60)).
    rewrite (floor_div_exact s 60) by lia. fold m.
    change (B64.div (inject_Z m) 60) with (B64.div (inject_Z m) (inject_Z 60)).
    rewrite (floor_div_exact m 60) by lia. fold h.
    change (B64.div (inject_Z h) 24) with (B64.div (inject_Z h) (inject_Z 24)).
    rewrite (floor_div_exact h 24) by lia. fold d.
    rewrite (Z.rem_mod_nonneg h 24), (Z.rem_mod_nonneg m 60) by lia.
    unfold template1, template2.
    rewrite (jsShow_defined d), (jsShow_defined h), (jsShow_defined m),
      (jsShow_defined s), (jsShow_defined (h mod 24)), (jsShow_defined (m mod 60))
      by lia.
    reflexivity. }
  rewrite Hfmt. clear Hfmt.
  repeat split; try lia.
  - assert (Hd0 : (d >? 0)%Z = false) by lia.
    assert (Hh0 : (h >? 0)%Z = false) by lia.
    assert (Hm0 : (m >? 0)%Z = false) by lia.
    now rewrite Hd0, Hh0, Hm0.
  - assert (Hd0 : (d >? 0)%Z = false) by lia.
    assert (Hh0 : (h >? 0)%Z = false) by lia.
    assert (Hm0 : (m >? 0)%Z = true) by lia.
    now rewrite Hd0, Hh0, Hm0.
  - assert (Hd0 : (d >? 0)%Z = false) by lia.
    assert (Hh0 : (h >? 0)%Z = true) by lia.
    now rewrite Hd0, Hh0.
  - assert (Hd0 : (d >? 0)%Z = true) by lia.
    now rewrite Hd0.
Qed.

Lemma fmtDuration_picks_the_coarsest_unit_witness :
  fmtDuration 59999 = Some "59s" /\
  fmtDuration 3599999 = Some "59m" /\
  fmtDuration 86399999 = Some "23h 59m" /\
  fmtDuration 9007199254740991 = Some "104249991d 8h".
Proof.
  split; [| split; [| split]].
  - apply (fmtDuration_picks_the_coarsest_unit 59999); lia.
  - apply (fmtDuration_picks_the_coarsest_unit 3599999); lia.
  - apply (fmtDuration_picks_the_coarsest_unit 86399999); lia.
  - apply (fmtDuration_picks_the_coarsest_unit 9007199254740991); lia.
Defined.

(** X12.  [nextStageNeed] never reads past the table: at the last stage it
    gives the last threshold, 230, which growth has reached; below the
    last stage it gives a threshold strictly above growth and at most 80
    points away. *)
Theorem nextStageNeed_stays_in_table :
  forall g : Q,
    0 <= g ->
    (stageFromGrowth g = 5%nat -> nextStageNeed g = 230 /\ nextStageNeed g <= g) /\
    (stageFromGrowth g <> 5%nat ->
       g < nextStageNeed g /\ nextStageNeed g - g <= 80).
Proof.
  intros g Hg. split.
  - intros H5. unfold nextStageNeed. cbv zeta. rewrite H5.
    split; [reflexivity |].
    pose proof (stageFromGrowth_reached g Hg) as Hr. rewrite H5 in Hr. exact Hr.
  - intros Hn.
    destruct (next_threshold_ahead g Hn) as [Hnext Hahead].
    rewrite Hnext. split; [exact Hahead |].
    pose proof (stageFromGrowth_reached g Hg) as Hr.
    pose proof (stageFromGrowth_in_table g) as Hin.
    change (List.length STAGES) with 6%nat in Hin.
    destruct (stageFromGrowth g) as [| [| [| [| [| [| n]]]]]];
      try lia; try congruence;
      unfold stageAt, STAGES in Hr |- *; cbn [nth need Nat.add] in Hr |- *; lra.
Qed.

Lemma nextStageNeed_stays_in_table_witness :
  (nextStageNeed 500 = 230 /\ nextStageNeed 500 <= 500) /\
  (150 < nextStageNeed 150 /\ nextStageNeed 150 - 150 <= 80).
Proof.
  split.
  - apply (nextStageNeed_stays_in_table 500); [discriminate | reflexivity].
  - apply (nextStageNeed_stays_in_table 150); [discriminate | discriminate].
Defined.

(** X13.  The percentages in the status line: for a state in range the
    number shown for hydration and for health is a whole number from 0 to
    100, not more than half a point away from the value, a half going up. *)
Theorem shown_percent_is_rounded_value :
  forall state : PlantState,
    inRange state ->
    let hy := mathRound (hydration state) in
    let he := mathRound (health state) in
    renderHydration state = (showZ hy ++ "%")%string /\
    renderHealth state = (showZ he ++ "%")%string /\
    (0 <= hy <= 100)%Z /\ (0 <= he <= 100)%Z /\
    hydration state - (1 # 2) < inject_Z hy /\ inject_Z hy <= hydration state + (1 # 2) /\
    health state - (1 # 2) < inject_Z he /\ inject_Z he <= health state + (1 # 2).
Proof.
  intros state [[Hy0 Hy1] [He0 He1]] hy he.
  assert (Hround : forall x, 0 <= x -> x <= 100 ->
            (0 <= mathRound x <= 100)%Z /\
            x - (1 # 2) < inject_Z (mathRound x) /\ inject_Z (mathRound x) <= x + (1 # 2)).
  { intros x H0 H1. unfold mathRound.
    pose proof (Qfloor_le (x + (1 # 2))) as Hle.
    pose proof (Qlt_floor (x + (1 # 2))) as Hlt.
    rewrite inject_Z_plus in Hlt. change (inject_Z 1) with 1 in Hlt.
    split; [| split; lra].
    split.
    - change 0%Z with (Qfloor 0). apply Qfloor_resp_le. lra.
    - change 100%Z with (Qfloor (100 + (1 # 2))). apply Qfloor_resp_le. lra. }
  destruct (Hround _ Hy0 Hy1) as (Ha & Hb & Hc).
  destruct (Hround _ He0 He1) as (Hd & He & Hf).
  repeat split; try assumption; try apply Ha; try apply Hd.
Qed.

Lemma shown_percent_is_rounded_value_witness :
  let state := mkPlant 0 0 0 (125 # 2) (849 # 10) 0 0 in
  let hy := mathRound (hydration state) in
  let he := mathRound (health state) in
  renderHydration state = (showZ hy ++ "%")%string /\
  renderHealth state = (showZ he ++ "%")%string /\
  (0 <= hy <= 100)%Z /\ (0 <= he <= 100)%Z /\
  hydration state - (1 # 2) < inject_Z hy /\ inject_Z hy <= hydration state + (1 # 2) /\
  health state - (1 # 2) < inject_Z he /\ inject_Z he <= health state + (1 # 2).
Proof.
  apply (shown_percent_is_rounded_value (mkPlant 0 0 0 (125 # 2) (849 # 10) 0 0)).
  unfold inRange; cbn; repeat split; discriminate.
Defined.

(** ** The generator and the pixel scene *)

Lemma toInt32_range (z : Z) : (- 2 ^ 31 <= Int32.toInt32 z < 2 ^ 31)%Z.
Proof.
  unfold Int32.toInt32.
  pose proof (Z.mod_pos_bound (z + 2 ^ 31) (2 ^ 32)) as H. lia.
Qed.

Lemma rand_range (seed : Z) :
  0 <= fst (fst (rand seed)) /\ fst (fst (rand seed)) < 1 /\
  (- 2 ^ 31 <= snd (fst (rand seed)) < 2 ^ 31)%Z /\
  snd (rand seed) = [].
Proof.
  unfold rand. cbv zeta. cbn [fst snd].
  set (s := Int32.or _ 0).
  assert (Hu : (0 <= Int32.ushr s 0 < 4294967296)%Z).
  { unfold Int32.ushr, Int32.toUint32. rewrite Z.shiftr_0_r.
    apply Z.mod_pos_bound. reflexivity. }
  split; [| split; [| split]].
  - apply Qle_shift_div_l; [reflexivity |]. rewrite Qmult_0_l.
    change 0 with (inject_Z 0). rewrite <- Zle_Qle. lia.
  - apply Qlt_shift_div_r; [reflexivity |]. rewrite Qmult_1_l.
    change 4294967296 with (inject_Z 4294967296). rewrite <- Zlt_Qlt. lia.
  - unfold s, Int32.or. change (Int32.toInt32 0) with 0%Z. rewrite Z.lor_0_r.
    apply toInt32_range.
  - reflexivity.
Qed.

(** Rules for [emitsColor]. *)
Lemma countColor_app (color : string) (l1 l2 : list Pixel) :
  countColor color (l1 ++ l2) = (countColor color l1 + countColor color l2)%nat.
Proof. unfold countColor. now rewrite filter_app, length_app. Qed.

Lemma emitsColor_dret {A} (color : string) (a : A) : emitsColor color 0 (dret a).
Proof. intros seed. reflexivity. Qed.

Lemma emitsColor_dbind {A B} (color : string) (n1 n2 : nat)
    (m : Draw A) (f : A -> Draw B) :
  emitsColor color n1 m -> (forall a, emitsColor color n2 (f a)) ->
  emitsColor color (n1 + n2) (dbind m f).
Proof.
  intros Hm Hf seed. rewrite dbind_out, countColor_app.
  now rewrite (Hm seed), (Hf _ _).
Qed.

Lemma emitsColor_rand (color : string) : emitsColor color 0 rand.
Proof. intros seed. reflexivity. Qed.

Lemma emitsColor_px_same (color : string) (x y : Z) :
  emitsColor color 1 (px x y color).
Proof.
  intros seed. unfold countColor, px. cbn. now rewrite String.eqb_refl.
Qed.

Lemma emitsColor_px_other (color other : string) (x y : Z) :
  String.eqb other color = false -> emitsColor color 0 (px x y other).
Proof.
  intros H seed. unfold countColor, px. cbn. now rewrite H.
Qed.

(** Each turn of the loop of [drawVine] appends one pixel of the vine
    colour, and the optional leaf and blossom have other colours. *)
Lemma vineLoop_emitsColor (stageIdx : nat) (c1 c2 : string) (side : Z)
    (n : nat) (x y : Z) :
  String.eqb c2 c1 = false -> String.eqb flower c1 = false ->
  emitsColor c1 n (vineLoop stageIdx c1 c2 side n x y).
Proof.
  intros Hleaf Hflower.
  revert x y. induction n as [| n IH]; intros x y; [apply emitsColor_dret |].
  cbn [vineLoop].
  apply (emitsColor_dbind c1 0 (S n)); [apply emitsColor_rand | intros r1].
  apply (emitsColor_dbind c1 0 (S n)); [apply emitsColor_rand | intros r2].
  apply (emitsColor_dbind c1 1 n); [apply emitsColor_px_same | intros ?].
  apply (emitsColor_dbind c1 0 n).
  { apply (emitsColor_dbind c1 0 0); [apply emitsColor_rand | intros r3].
    destruct (Qltb r3 0.33); [| apply emitsColor_dret].
    apply (emitsColor_dbind c1 0 0); [apply emitsColor_rand | intros r4].
    now apply emitsColor_px_other. }
  intros ?. apply (emitsColor_dbind c1 0 n).
  { destruct (5 <=? stageIdx)%nat; [| apply emitsColor_dret].
    apply (emitsColor_dbind c1 0 0); [apply emitsColor_rand | intros r5].
    destruct (Qltb r5 0.10); [| apply emitsColor_dret].
    now apply emitsColor_px_other. }
  intros ?. apply IH.
Qed.

(** The stem colour of a state is neither its leaf colour nor the blossom
    colour. *)
Lemma dark_is_its_own_colour (state : PlantState) :
  String.eqb (greenOf state) (darkOf state) = false /\
  String.eqb flower (darkOf state) = false.
Proof.
  unfold greenOf, darkOf. cbv zeta.
  destruct (Qgtb _ 60); [split; reflexivity |].
  destruct (Qgtb _ 35); split; reflexivity.
Qed.

(** X14.  [rand()] gives a number from 0 (included) to 1 (excluded) and
    keeps the seed a 32-bit signed integer, whatever the seed was; so each
    vine that [drawVine] draws has between 10 and 15 steps, or between 14
    and 19 at the last stage: it appends 10 + floor(6 r) pixels of the stem
    colour (plus 4 at the last stage), one per step, where r is the first
    number drawn. *)
Theorem vine_has_10_to_15_steps :
  forall (seed : Z) (stageIdx : nat) (state : PlantState) (side : Z),
    let r := fst (fst (rand seed)) in
    let extra := (if (5 <=? stageIdx)%nat then 4 else 0)%Z in
    let vine := snd (drawVine stageIdx (darkOf state) (greenOf state) side seed) in
    0 <= r /\ r < 1 /\
    (- 2 ^ 31 <= snd (fst (rand seed)) < 2 ^ 31)%Z /\
    Z.of_nat (countColor (darkOf state) vine) = (10 + Qfloor (r * 6) + extra)%Z /\
    (10 + extra <= Z.of_nat (countColor (darkOf state) vine) <= 15 + extra)%Z.
Proof.
  intros seed stageIdx state side r extra vine.
  destruct (rand_range seed) as (H0 & H1 & Hs & Hout). fold r in H0, H1.
  assert (Hf : (0 <= Qfloor (r * 6) <= 5)%Z).
  { split.
    - change 0%Z with (Qfloor 0). apply Qfloor_resp_le. lra.
    - apply Z.lt_succ_r. apply Qfloor_lt_iff. change (inject_Z (Z.succ 5)) with 6. lra. }
  destruct (dark_is_its_own_colour state) as [Hleaf Hflower].
  assert (Hcount : Z.of_nat (countColor (darkOf state) vine)
                   = (10 + Qfloor (r * 6) + extra)%Z).
  { unfold vine, drawVine. cbv zeta.
    rewrite dbind_out, countColor_app, Hout. fold r.
    rewrite (vineLoop_emitsColor stageIdx _ _ side _ _ _ Hleaf Hflower).
    cbn [countColor filter List.length Nat.add].
    fold extra. rewrite Z2Nat.id; [reflexivity |].
    unfold extra. destruct (5 <=? stageIdx)%nat; lia. }
  split; [exact H0 |]. split; [exact H1 |]. split; [exact Hs |].
  split; [exact Hcount |].
  rewrite Hcount. unfold extra. destruct (5 <=? stageIdx)%nat; lia.
Qed.

(** Rules for [emits]. *)
Lemma emits_dret {A} (P : Pixel -> Prop) (a : A) : emits P (dret a).
Proof. intros seed. constructor. Qed.

Lemma emits_dbind {A B} (P : Pixel -> Prop) (m : Draw A) (f : A -> Draw B) :
  emits P m -> (forall a, emits P (f a)) -> emits P (dbind m f).
Proof.
  intros Hm Hf seed. rewrite dbind_out. apply Forall_app. split; [apply Hm | apply Hf].
Qed.

Lemma emits_px (P : Pixel -> Prop) (x y : Z) (color : string) :
  P (mkPixel (x * 10) (y * 10) color) -> emits P (px x y color).
Proof. intros H seed. cbn. constructor; [exact H | constructor]. Qed.

Lemma emits_rand (P : Pixel -> Prop) : emits P rand.
Proof. intros seed. constructor. Qed.

Lemma emits_dwhen (P : Pixel -> Prop) (b : bool) (m : Draw unit) :
  emits P m -> emits P (dwhen b m).
Proof. intros H. destruct b; [exact H | apply emits_dret]. Qed.

Lemma emits_dfor {A} (P : Pixel -> Prop) (l : list A) (body : A -> Draw unit) :
  (forall a, In a l -> emits P (body a)) -> emits P (dfor l body).
Proof.
  induction l as [| a l IH]; intros H; [apply emits_dret |].
  cbn [dfor]. apply emits_dbind.
  - apply H. now left.
  - intros _. apply IH. intros b Hb. apply H. now right.
Qed.

Lemma in_upto (lo hi k : Z) : In k (upto lo hi) -> (lo <= k <= hi)%Z.
Proof.
  unfold upto. rewrite in_map_iff. intros (n & <- & Hn).
  apply in_seq in Hn. lia.
Qed.

Lemma in_downto (hi lo k : Z) : In k (downto hi lo) -> (lo <= k <= hi)%Z.
Proof.
  unfold downto. rewrite in_map_iff. intros (n & <- & Hn).
  apply in_seq in Hn. lia.
Qed.

Lemma onCanvas_px (x y : Z) (color : string) :
  (0 <= x <= 21)%Z -> (0 <= y <= 19)%Z -> emits onCanvas (px x y color).
Proof.
  intros Hx Hy. apply emits_px. unfold onCanvas. cbn. lia.
Qed.

Lemma vineLoop_onCanvas (stageIdx : nat) (c1 c2 : string) (side : Z)
    (n : nat) (x y : Z) :
  emits onCanvas (vineLoop stageIdx c1 c2 side n x y).
Proof.
  revert x y. induction n as [| n IH]; intros x y; [apply emits_dret |].
  cbn [vineLoop].
  apply emits_dbind; [apply emits_rand | intros r1].
  apply emits_dbind; [apply emits_rand | intros r2].
  apply emits_dbind; [apply onCanvas_px; unfold clampZ; lia | intros _].
  apply emits_dbind.
  { apply emits_dbind; [apply emits_rand | intros r3].
    destruct (Qltb r3 0.33); [| apply emits_dret].
    apply emits_dbind; [apply emits_rand | intros r4].
    apply onCanvas_px; unfold clampZ; lia. }
  intros _. apply emits_dbind.
  { destruct (5 <=? stageIdx)%nat; [| apply emits_dret].
    apply emits_dbind; [apply emits_rand | intros r5].
    destruct (Qltb r5 0.10); [| apply emits_dret].
    apply onCanvas_px; unfold clampZ; lia. }
  intros _. apply IH.
Qed.

(** X15.  Every pixel of the scene lies on the 22 by 20 canvas, for every
    stage index and every state: the fixed parts by their coordinates, the
    vines because each coordinate goes through [clamp]. *)
Theorem scene_stays_on_canvas :
  forall (stageIdx : nat) (state : PlantState) (plant : list Pixel),
    Forall onCanvas (drawPlant stageIdx state plant) /\
    Forall onCanvas (drawPlant_v1 stageIdx state plant).
Proof.
  intros stageIdx state plant.
  assert (Hpot : emits onCanvas drawPot).
  { unfold drawPot. cbv zeta.
    apply emits_dbind.
    { apply emits_dfor. intros x Hx. apply emits_dfor. intros y Hy.
      apply in_upto in Hx, Hy. apply onCanvas_px; lia. }
    intros _. apply emits_dbind.
    { apply emits_dfor. intros x Hx. apply in_upto in Hx. apply onCanvas_px; lia. }
    intros _. apply emits_dfor. intros x Hx. apply in_upto in Hx.
    apply onCanvas_px; lia. }
  assert (Hstem : emits onCanvas (drawStem stageIdx (darkOf state))).
  { unfold drawStem. apply emits_dfor. intros y Hy. apply in_downto in Hy.
    unfold stemTopOf in Hy. apply onCanvas_px; unfold stemX; lia. }
  assert (Hleaf : forall cy dir, (6 <= cy <= 13)%Z -> (dir = 1 \/ dir = -1)%Z ->
            emits onCanvas (addLeaf (greenOf state) stemX cy dir)).
  { intros cy dir Hcy Hdir. unfold addLeaf, stemX. cbv zeta.
    repeat (apply emits_dbind; [apply onCanvas_px; lia | intros _]).
    apply onCanvas_px; lia. }
  assert (Hleaves : emits onCanvas (drawLeaves stageIdx (greenOf state))).
  { unfold drawLeaves.
    repeat (apply emits_dbind;
            [apply emits_dwhen, emits_dbind;
             [apply Hleaf; lia | intros _; apply Hleaf; lia] | intros _]).
    apply emits_dwhen, emits_dbind; [apply Hleaf; lia | intros _; apply Hleaf; lia]. }
  assert (Hvines : emits onCanvas (drawVines stageIdx (darkOf state) (greenOf state))).
  { unfold drawVines, drawVine. cbv zeta. apply emits_dwhen.
    apply emits_dbind.
    - apply emits_dbind; [apply emits_rand | intros r; apply vineLoop_onCanvas].
    - intros _. apply emits_dbind; [apply emits_rand | intros r; apply vineLoop_onCanvas]. }
  assert (Hflower : emits onCanvas (drawFlower stageIdx)).
  { unfold drawFlower, stemTopOf, stemX. cbv zeta. apply emits_dwhen.
    repeat (apply emits_dbind; [apply onCanvas_px; lia | intros _]).
    apply onCanvas_px; lia. }
  assert (Hsparkle : emits onCanvas (drawSparkle state)).
  { unfold drawSparkle. apply emits_dwhen.
    repeat (apply emits_dbind; [apply onCanvas_px; lia | intros _]).
    apply onCanvas_px; lia. }
  split; unfold drawPlant, drawPlant_v1; cbv zeta; rewrite app_nil_l.
  - apply (emits_dbind onCanvas); [exact Hpot | intros _].
    apply emits_dbind; [exact Hstem | intros _].
    apply emits_dbind; [exact Hleaves | intros _].
    apply emits_dbind; [exact Hvines | intros _].
    apply emits_dbind; [exact Hflower | intros _]. exact Hsparkle.
  - apply (emits_dbind onCanvas); [exact Hpot | intros _].
    apply emits_dbind; [exact Hstem | intros _].
    apply emits_dbind; [exact Hleaves | intros _].
    apply emits_dbind; [exact Hflower | intros _]. exact Hsparkle.
Qed.

(** Rules for [emitsAtMost]. *)
Lemma atMost_dret {A} (a : A) : emitsAtMost 0 (dret a).
Proof. intros seed. cbn. lia. Qed.

Lemma atMost_weaken {A} (n n' : nat) (m : Draw A) :
  (n <= n')%nat -> emitsAtMost n m -> emitsAtMost n' m.
Proof. intros Hn Hm seed. specialize (Hm seed). lia. Qed.

Lemma atMost_dbind {A B} (n1 n2 : nat) (m : Draw A) (f : A -> Draw B) :
  emitsAtMost n1 m -> (forall seed, emitsAtMost n2 (f (fst (fst (m seed))))) ->
  emitsAtMost (n1 + n2) (dbind m f).
Proof.
  intros Hm Hf seed. rewrite dbind_out, length_app.
  specialize (Hm seed). specialize (Hf seed (snd (fst (m seed)))). lia.
Qed.

Lemma atMost_px (x y : Z) (color : string) : emitsAtMost 1 (px x y color).
Proof. intros seed. cbn. lia. Qed.

Lemma atMost_rand : emitsAtMost 0 rand.
Proof. intros seed. cbn. lia. Qed.

Lemma atMost_dwhen (n : nat) (b : bool) (m : Draw unit) :
  emitsAtMost n m -> emitsAtMost n (dwhen b m).
Proof.
  intros H. destruct b; [exact H |].
  apply (atMost_weaken 0); [lia | apply atMost_dret].
Qed.

Lemma atMost_dfor {A} (n : nat) (l : list A) (body : A -> Draw unit) :
  (forall a, emitsAtMost n (body a)) ->
  emitsAtMost (List.length l * n) (dfor l body).
Proof.
  intros H. induction l as [| a l IH]; [apply atMost_dret |].
  cbn [dfor List.length Nat.mul]. apply atMost_dbind; [apply H | intros ?; exact IH].
Qed.

Lemma vineLoop_atMost (stageIdx : nat) (c1 c2 : string) (side : Z)
    (n : nat) (x y : Z) :
  emitsAtMost (n * 3) (vineLoop stageIdx c1 c2 side n x y).
Proof.
  revert x y. induction n as [| n IH]; intros x y; [apply atMost_dret |].
  cbn [vineLoop Nat.mul].
  apply (atMost_dbind 0); [apply atMost_rand | intros ?].
  apply (atMost_dbind 0); [apply atMost_rand | intros ?].
  apply (atMost_dbind 1 (2 + n * 3)); [apply atMost_px | intros ?].
  apply (atMost_dbind 1 (1 + n * 3)).
  { apply (atMost_dbind 0 1); [apply atMost_rand | intros s3].
    destruct (Qltb _ 0.33); [| apply (atMost_weaken 0); [lia | apply atMost_dret]].
    apply (atMost_dbind 0 1); [apply atMost_rand | intros ?; apply atMost_px]. }
  intros ?. apply (atMost_dbind 1 (n * 3)).
  { destruct (5 <=? stageIdx)%nat; [| apply (atMost_weaken 0); [lia | apply atMost_dret]].
    apply (atMost_dbind 0 1); [apply atMost_rand | intros s5].
    destruct (Qltb _ 0.10); [apply atMost_px |].
    apply (atMost_weaken 0); [lia | apply atMost_dret]. }
  intros ?. apply IH.
Qed.

Lemma drawVine_atMost (stageIdx : nat) (c1 c2 : string) (side : Z) :
  emitsAtMost 57 (drawVine stageIdx c1 c2 side).
Proof.
  unfold drawVine. cbv zeta.
  apply (atMost_dbind 0 57); [apply atMost_rand | intros seed].
  destruct (rand_range seed) as (H0 & H1 & _).
  set (r := fst (fst (rand seed))) in *.
  assert (Hf : (Qfloor (r * 6) <= 5)%Z).
  { apply Z.lt_succ_r. apply Qfloor_lt_iff. change (inject_Z (Z.succ 5)) with 6. lra. }
  eapply atMost_weaken; [| apply vineLoop_atMost].
  destruct (5 <=? stageIdx)%nat; lia.
Qed.

(** X16.  A scene never has more than 190 pixels: 34 for the pot, at most
    11 for the stem, 24 for the leaves, 57 for each vine, 4 for the
    blossom and 3 for the sparkle. *)
Theorem scene_has_at_most_190_pixels :
  forall (stageIdx : nat) (state : PlantState) (plant : list Pixel),
    (List.length (drawPlant stageIdx state plant) <= 190)%nat /\
    (List.length (drawPlant_v1 stageIdx state plant) <= 76)%nat.
Proof.
  intros stageIdx state plant.
  assert (Hpot : emitsAtMost 34 drawPot).
  { intros seed. vm_compute. lia. }
  assert (Hstem : emitsAtMost 11 (drawStem stageIdx (darkOf state))).
  { unfold drawStem. eapply atMost_weaken; [| apply atMost_dfor; intros y; apply atMost_px].
    unfold downto, stemTopOf. rewrite length_map, length_seq. lia. }
  assert (Hleaves : emitsAtMost 24 (drawLeaves stageIdx (greenOf state))).
  { intros seed. rewrite drawLeaves_out.
    destruct (2 <=? stageIdx)%nat, (3 <=? stageIdx)%nat, (4 <=? stageIdx)%nat;
      vm_compute; lia. }
  assert (Hvines : emitsAtMost 114 (drawVines stageIdx (darkOf state) (greenOf state))).
  { unfold drawVines. apply atMost_dwhen.
    apply (atMost_dbind 57 57); [apply drawVine_atMost | intros ?; apply drawVine_atMost]. }
  assert (Hflower : emitsAtMost 4 (drawFlower stageIdx)).
  { unfold drawFlower. cbv zeta. apply atMost_dwhen. intros seed. vm_compute. lia. }
  assert (Hsparkle : emitsAtMost 3 (drawSparkle state)).
  { unfold drawSparkle. apply atMost_dwhen. intros seed. vm_compute. lia. }
  split; unfold drawPlant, drawPlant_v1; cbv zeta; rewrite app_nil_l.
  - apply (atMost_dbind 34 156); [exact Hpot | intros ?].
    apply (atMost_dbind 11 145); [exact Hstem | intros ?].
    apply (atMost_dbind 24 121); [exact Hleaves | intros ?].
    apply (atMost_dbind 114 7); [exact Hvines | intros ?].
    apply (atMost_dbind 4 3); [exact Hflower | intros ?]. exact Hsparkle.
  - apply (atMost_dbind 34 42); [exact Hpot | intros ?].
    apply (atMost_dbind 11 31); [exact Hstem | intros ?].
    apply (atMost_dbind 24 7); [exact Hleaves | intros ?].
    apply (atMost_dbind 4 3); [exact Hflower | intros ?]. exact Hsparkle.
Qed.














(** ** The generator never sticks, except at zero *)

Section Xorshift.

Import Int32.

Lemma toInt32_mod (z : Z) : (toInt32 z mod 2 ^ 32 = z mod 2 ^ 32)%Z.
Proof. unfold toInt32. Z.to_euclidean_division_equations. lia. Qed.

Lemma toInt32_zero_iff (z : Z) : toInt32 z = 0%Z <-> (z mod 2 ^ 32 = 0)%Z.
Proof. unfold toInt32. Z.to_euclidean_division_equations. lia. Qed.

Lemma toInt32_bit (z n : Z) :
  (n < 32)%Z -> Z.testbit (toInt32 z) n = Z.testbit z n.
Proof.
  intros Hn.
  rewrite <- (Z.mod_pow2_bits_low (toInt32 z) 32 n Hn), toInt32_mod.
  apply Z.mod_pow2_bits_low. exact Hn.
Qed.

Lemma low_bits_zero (z : Z) :
  (z mod 2 ^ 32 = 0)%Z <-> (forall n, (0 <= n < 32)%Z -> Z.testbit z n = false).
Proof.
  split.
  - intros Hz n Hn.
    rewrite <- (Z.mod_pow2_bits_low z 32 n) by lia. rewrite Hz. apply Z.bits_0.
  - intros Hb. apply Z.bits_inj'. intros n Hn. rewrite Z.bits_0.
    destruct (Z.lt_ge_cases n 32) as [Hlt | Hge].
    + rewrite Z.mod_pow2_bits_low by exact Hlt. apply Hb. lia.
    + apply Z.mod_pow2_bits_high. lia.
Qed.

Lemma xor_bit (a b n : Z) :
  (n < 32)%Z -> Z.testbit (xor a b) n = xorb (Z.testbit a n) (Z.testbit b n).
Proof.
  intros Hn. unfold xor. now rewrite Z.lxor_spec, !toInt32_bit.
Qed.

Lemma shl_bit (a k n : Z) :
  (0 <= n < 32)%Z -> (0 <= k)%Z -> Z.testbit (shl a k) n = Z.testbit a (n - k).
Proof.
  intros Hn Hk. unfold shl. rewrite toInt32_bit by lia.
  rewrite Z.shiftl_spec by lia.
  destruct (Z.lt_ge_cases (n - k) 0) as [Hneg | Hpos].
  - now rewrite !Z.testbit_neg_r.
  - apply toInt32_bit. lia.
Qed.

Lemma ushr_bit (a k n : Z) :
  (0 <= n)%Z -> (0 <= k)%Z ->
  Z.testbit (ushr a k) n = if (n + k <? 32)%Z then Z.testbit a (n + k) else false.
Proof.
  intros Hn Hk. unfold ushr, toUint32. rewrite Z.shiftr_spec by exact Hn.
  destruct (n + k <? 32)%Z eqn:E.
  - apply Z.ltb_lt in E. now apply Z.mod_pow2_bits_low.
  - apply Z.ltb_ge in E. apply Z.mod_pow2_bits_high. lia.
Qed.

Lemma or_zero_bit (a n : Z) : (n < 32)%Z -> Z.testbit (or a 0) n = Z.testbit a n.
Proof.
  intros Hn. unfold or. change (toInt32 0) with 0%Z.
  rewrite Z.lor_0_r. now apply toInt32_bit.
Qed.

(** All 32 low bits clear. *)
Let clear32 (z : Z) : Prop := forall n, (0 <= n < 32)%Z -> Z.testbit z n = false.

Lemma shl_step_clear (a k : Z) :
  (0 < k)%Z -> clear32 (xor a (shl a k)) -> clear32 a.
Proof.
  intros Hk Hc n [Hn0 Hn32]. revert Hn32. pattern n.
  apply Z_lt_induction; [| exact Hn0].
  intros m IH Hm.
  destruct (Z.lt_ge_cases m 0) as [Hneg | Hm0]; [now apply Z.testbit_neg_r |].
  specialize (Hc m (conj Hm0 Hm)).
  rewrite xor_bit, shl_bit in Hc by lia.
  assert (Hprev : Z.testbit a (m - k) = false).
  { destruct (Z.lt_ge_cases (m - k) 0) as [Hneg | Hpos].
    - now apply Z.testbit_neg_r.
    - apply IH; lia. }
  rewrite Hprev, xorb_false_r in Hc. exact Hc.
Qed.

Lemma ushr_step_clear (a k : Z) :
  (0 < k)%Z -> clear32 (xor a (ushr a k)) -> clear32 a.
Proof.
  intros Hk Hc.
  assert (Hhigh : forall n, (32 - k <= n < 32)%Z -> (0 <= n)%Z -> Z.testbit a n = false).
  { intros n Hn Hn0. specialize (Hc n ltac:(lia)).
    rewrite xor_bit, ushr_bit in Hc by lia.
    replace (n + k <? 32)%Z with false in Hc by lia.
    now rewrite xorb_false_r in Hc. }
  (* downward: bit n follows bit n + k *)
  assert (Hdown : forall d, (0 <= d)%Z -> forall n, (0 <= n < 32)%Z -> (32 - n <= d)%Z ->
                    Z.testbit a n = false).
  { intros d Hd. pattern d. apply Z_lt_induction; [| exact Hd].
    intros e IH n Hn He.
    destruct (Z.lt_ge_cases (n + k) 32) as [Hlow | Hup].
    - specialize (Hc n Hn). rewrite xor_bit, ushr_bit in Hc by lia.
      replace (n + k <? 32)%Z with true in Hc by lia.
      rewrite (IH (32 - (n + k))%Z ltac:(lia) (n + k)%Z) in Hc by lia.
      now rewrite xorb_false_r in Hc.
    - apply Hhigh; lia. }
  intros n Hn. apply (Hdown 32%Z); lia.
Qed.

Lemma or_step_clear (a : Z) : clear32 (or a 0) -> clear32 a.
Proof.
  intros Hc n Hn. specialize (Hc n Hn). now rewrite or_zero_bit in Hc by lia.
Qed.

Lemma rand_seed (seed : Z) :
  snd (fst (rand seed))
  = or (xor (xor (or (xor seed (shl seed 13)) 0)
                 (ushr (or (xor seed (shl seed 13)) 0) 17))
            (shl (xor (or (xor seed (shl seed 13)) 0)
                      (ushr (or (xor seed (shl seed 13)) 0) 17)) 5)) 0.
Proof. reflexivity. Qed.

Lemma rand_keeps_nonzero (seed : Z) :
  snd (fst (rand seed)) = 0%Z -> toInt32 seed = 0%Z.
Proof.
  intros H.
  assert (C : clear32 (snd (fst (rand seed)))).
  { rewrite H. intros n _. apply Z.bits_0. }
  rewrite rand_seed in C.
  apply or_step_clear in C.
  apply shl_step_clear in C; [| lia].
  apply ushr_step_clear in C; [| lia].
  apply or_step_clear in C.
  apply shl_step_clear in C; [| lia].
  apply toInt32_zero_iff, low_bits_zero. exact C.
Qed.

Lemma rand_value (seed : Z) :
  fst (fst (rand seed))
  = inject_Z (snd (fst (rand seed)) mod 2 ^ 32) / 4294967296.
Proof.
  unfold rand. cbv zeta. cbn [fst snd]. unfold ushr, toUint32.
  now rewrite Z.shiftr_0_r.
Qed.

Lemma rand_at_zero (seed : Z) :
  toInt32 seed = 0%Z -> rand seed = (0 / 4294967296, 0%Z, []).
Proof.
  intros H.
  assert (H1 : xor seed (shl seed 13) = 0%Z).
  { unfold xor, shl. rewrite H. reflexivity. }
  unfold rand. cbv zeta. rewrite H1. reflexivity.
Qed.

End Xorshift.

(** X22.  Zero is the only state the generator cannot leave: from a seed
    that is 0 as a 32-bit integer every [rand()] is 0 and the seed stays 0;
    from any other seed the next seed is not 0 and the number drawn is
    above 0.  A plant starts at seed 0 exactly when the second of its
    creation is 0x9e3779b9 modulo 2^32. *)
Theorem generator_sticks_only_at_zero :
  forall (seed : Z) (state : PlantState),
    (Int32.toInt32 seed = 0%Z ->
       fst (fst (rand seed)) == 0 /\ snd (fst (rand seed)) = 0%Z) /\
    (Int32.toInt32 seed <> 0%Z ->
       0 < fst (fst (rand seed)) /\ snd (fst (rand seed)) <> 0%Z /\
       Int32.toInt32 (snd (fst (rand seed))) <> 0%Z) /\
    (initSeed state = 0%Z <->
     ((createdAt state / 1000) mod 2 ^ 32 = 0x9e3779b9)%Z).
Proof.
  intros seed state. split; [| split].
  - intros H. rewrite (rand_at_zero seed H). split; reflexivity.
  - intros H.
    assert (Hnz : snd (fst (rand seed)) <> 0%Z).
    { intros C. apply H. now apply rand_keeps_nonzero. }
    destruct (rand_range seed) as (_ & _ & Hr & _).
    rewrite rand_value.
    revert Hr Hnz. generalize (snd (fst (rand seed))). intros z Hr Hnz.
    assert (Hnz32 : Int32.toInt32 z <> 0%Z).
    { unfold Int32.toInt32. Z.to_euclidean_division_equations. lia. }
    split; [| split; assumption].
    assert (Hm : (0 < z mod 2 ^ 32)%Z).
    { Z.to_euclidean_division_equations. lia. }
    apply Qlt_shift_div_l; [reflexivity |]. rewrite Qmult_0_l.
    change 0 with (inject_Z 0). rewrite <- Zlt_Qlt. exact Hm.
  - rewrite initSeed_unfold, Z.lxor_eq_0_iff.
    unfold Int32.toInt32. Z.to_euclidean_division_equations. lia.
Qed.

Lemma generator_sticks_only_at_zero_witness :
  (fst (fst (rand 4294967296%Z)) == 0 /\ snd (fst (rand 4294967296%Z)) = 0%Z) /\
  (0 < fst (fst (rand 1%Z)) /\ snd (fst (rand 1%Z)) <> 0%Z /\
   Int32.toInt32 (snd (fst (rand 1%Z))) <> 0%Z).
Proof.
  split.
  - apply (generator_sticks_only_at_zero 4294967296%Z (newPlant 0)). reflexivity.
  - apply (generator_sticks_only_at_zero 1%Z (newPlant 0)). discriminate.
Defined.

(** ** The text scene *)

Lemma setNth_length {A} (n : nat) (a : A) (l : list A) :
  List.length (TextMode.setNth n a l) = List.length l.
Proof.
  revert n. induction l as [| h l IH]; intros n; [now destruct n |].
  destruct n as [| n]; cbn; [reflexivity | now rewrite IH].
Qed.

Lemma setNth_Forall {A} (P : A -> Prop) (n : nat) (a : A) (l : list A) :
  P a -> Forall P l -> Forall P (TextMode.setNth n a l).
Proof.
  intros Ha Hl. revert n. induction Hl as [| h l Hh Hl IH]; intros n;
    [destruct n; constructor |].
  destruct n as [| n]; cbn; constructor; auto.
Qed.

Lemma assign_fullSize (x y : nat) (ch : ascii) (grid : TextMode.Grid) :
  fullSize grid -> fullSize (TextMode.assign x y ch grid).
Proof.
  intros [Hrows Hcols]. unfold TextMode.assign.
  destruct (Nat.lt_ge_cases y (List.length grid)) as [Hy | Hy].
  - split; [now rewrite setNth_length |].
    apply setNth_Forall; [| exact Hcols].
    rewrite setNth_length.
    rewrite Forall_forall in Hcols. apply Hcols. apply nth_In. exact Hy.
  - rewrite setNth_beyond by exact Hy. split; assumption.
Qed.

(** A painting statement that keeps the grid at its full size. *)
Lemma put_fullSize (x y : Z) (ch : ascii) (grid : TextMode.Grid) :
  fullSize grid -> fullSize (TextMode.put x y ch grid).
Proof.
  intros H. unfold TextMode.put.
  destruct (_ || _ || _ || _)%bool; [exact H | now apply assign_fullSize].
Qed.

Lemma pfor_fullSize {A} (l : list A) (body : A -> TextMode.Paint)
    (grid : TextMode.Grid) :
  (forall a g, fullSize g -> fullSize (body a g)) ->
  fullSize grid -> fullSize (TextMode.pfor l body grid).
Proof.
  intros Hbody. revert grid. induction l as [| a l IH]; intros grid Hg; [exact Hg |].
  cbn [TextMode.pfor]. unfold TextMode.seq2. apply IH. now apply Hbody.
Qed.

Lemma curlLoop_fullSize (side : Z) (n : nat) (i x y : Z) (grid : TextMode.Grid) :
  fullSize grid -> fullSize (TextMode.curlLoop side n i x y grid).
Proof.
  revert i x y grid. induction n as [| n IH]; intros i x y grid Hg; [exact Hg |].
  cbn [TextMode.curlLoop]. cbv zeta. unfold TextMode.seq2.
  apply IH. unfold TextMode.pwhen.
  destruct (Z.rem i 4 =? 0)%Z; [apply put_fullSize |]; now apply put_fullSize.
Qed.

(** X18.  The text scene always has 18 rows of 32 characters, whatever the
    stage index and the creation instant: writes outside the grid are
    dropped and the title is cut at the grid width. *)
Theorem text_scene_is_18_by_32 :
  forall (stageIdx : nat) (state : PlantState),
    fullSize (TextMode.plantGrid stageIdx state).
Proof.
  intros stageIdx state. unfold TextMode.plantGrid, TextMode.seq2.
  assert (Hblank : fullSize TextMode.blank).
  { split; [reflexivity |]. unfold TextMode.blank.
    apply Forall_forall. intros row Hrow. apply repeat_spec in Hrow. now subst row. }
  assert (Hpot : fullSize (TextMode.drawPot TextMode.blank)).
  { unfold TextMode.drawPot, TextMode.seq2. cbv zeta.
    repeat first [ apply put_fullSize
                 | apply pfor_fullSize; [intros ? ? ?; now apply put_fullSize |] ].
    exact Hblank. }
  assert (Hstem : fullSize (TextMode.drawStem stageIdx (TextMode.drawPot TextMode.blank))).
  { unfold TextMode.drawStem.
    apply pfor_fullSize; [intros ? ? ?; now apply put_fullSize | exact Hpot]. }
  set (g1 := TextMode.drawStem stageIdx _) in *.
  assert (Hleaves : fullSize (TextMode.drawLeaves stageIdx g1)).
  { unfold TextMode.drawLeaves, TextMode.leaf, TextMode.seq2, TextMode.pwhen.
    destruct (1 <=? stageIdx)%nat, (2 <=? stageIdx)%nat, (3 <=? stageIdx)%nat;
      unfold TextMode.skip; repeat apply put_fullSize; exact Hstem. }
  set (g2 := TextMode.drawLeaves stageIdx g1) in *.
  assert (Hvines : fullSize (TextMode.drawVines stageIdx state g2)).
  { unfold TextMode.drawVines, TextMode.curl, TextMode.seq2, TextMode.pwhen. cbv zeta.
    destruct (4 <=? stageIdx)%nat; [| exact Hleaves].
    now repeat apply curlLoop_fullSize. }
  set (g3 := TextMode.drawVines stageIdx state g2) in *.
  assert (Hflower : fullSize (TextMode.drawFlower stageIdx g3)).
  { unfold TextMode.drawFlower, TextMode.seq2, TextMode.pwhen. cbv zeta.
    destruct (5 <=? stageIdx)%nat; [| exact Hvines].
    now repeat apply put_fullSize. }
  unfold TextMode.drawTitle. cbv zeta.
  apply pfor_fullSize; [| exact Hflower].
  intros i g Hg. now apply assign_fullSize.
Qed.

(** X19.  The stem of the text scene is never overdrawn: for every stage
    index and state, every cell of column 16 from row 12 up to the stem top
    shows the stem glyph. *)
Theorem text_stem_is_never_overdrawn :
  forall (stageIdx : nat) (state : PlantState) (y : Z),
    (TextMode.stemTopOf stageIdx <= y <= 12)%Z ->
    TextMode.cell (TextMode.plantGrid stageIdx state) TextMode.stemX y = "|"%char.
Proof.
  intros stageIdx state y Hy.
  assert (Hcases : forall lo, (lo <= y <= 12)%Z -> (3 <= lo)%Z ->
            In y (upto lo 12)).
  { intros lo H1 H2. unfold upto. apply in_map_iff.
    exists (Z.to_nat (y - lo)). split; [lia |]. apply in_seq. lia. }
  destruct (Nat.lt_ge_cases stageIdx 4) as [Hs | Hs].
  - destruct stageIdx as [| [| [| [| s]]]]; [| | | | lia];
      cbn in Hy;
      match type of Hy with
      | (?lo <= _ <= _)%Z => specialize (Hcases lo Hy ltac:(lia))
      end;
      cbn in Hcases;
      repeat (destruct Hcases as [<- | Hcases]; [vm_compute; reflexivity |]);
      contradiction.
  - unfold TextMode.plantGrid, TextMode.seq2.
    assert (Htop : TextMode.stemTopOf stageIdx = 3%Z) by (unfold TextMode.stemTopOf; lia).
    rewrite Htop in Hy.
    rewrite (drawTitle_keeps stageIdx) by lia.
    assert (Hfl : keeps TextMode.stemX y (TextMode.drawFlower stageIdx)).
    { unfold TextMode.drawFlower. cbv zeta. rewrite Htop.
      apply keeps_pwhen.
      apply keeps_seq2; [apply keeps_put; lia |].
      apply keeps_seq2; apply keeps_put; unfold TextMode.stemX; lia. }
    rewrite Hfl.
    rewrite (drawVines_keeps stageIdx state) by (unfold TextMode.stemX; lia).
    destruct (stem_and_leaves_settled stageIdx Hs) as [-> ->].
    specialize (Hcases 3%Z Hy ltac:(lia)). cbn in Hcases.
    repeat (destruct Hcases as [<- | Hcases]; [vm_compute; reflexivity |]);
    contradiction.
Qed.

Lemma text_stem_is_never_overdrawn_witness :
  TextMode.cell (TextMode.plantGrid 5 (newPlant 1700000000000)) TextMode.stemX 9
  = "|"%char.
Proof.
  apply (text_stem_is_never_overdrawn 5 (newPlant 1700000000000) 9).
  cbn. lia.
Defined.

(** ** The two stored items *)

(** X20.  The text-mode preference survives a reload: what the checkbox
    handler stores is what startup reads back; with nothing stored text
    mode is on, and any stored text other than "1" turns it off.  Saving
    the plant does not touch the preference, and storing the preference
    does not touch the saved plant. *)
Theorem ascii_preference_round_trip :
  forall (store : Store) (checked : bool)
         (JSON_stringify : JSValue -> string) (state : JSValue) (pref : string),
    readAsciiMode (writeAsciiMode checked store) = checked /\
    (store ASCII_KEY = None -> readAsciiMode store = true) /\
    (store ASCII_KEY = Some pref -> pref <> "1" -> readAsciiMode store = false) /\
    readAsciiMode (saveState JSON_stringify state store) = readAsciiMode store /\
    writeAsciiMode checked store LS_KEY = store LS_KEY.
Proof.
  intros store checked JSON_stringify state pref.
  split; [| split; [| split; [| split]]].
  - unfold readAsciiMode, writeAsciiMode, setItem.
    rewrite String.eqb_refl. now destruct checked.
  - intros H. unfold readAsciiMode. now rewrite H.
  - intros H Hp. unfold readAsciiMode. rewrite H.
    apply String.eqb_neq. exact Hp.
  - reflexivity.
  - reflexivity.
Qed.

Lemma ascii_preference_round_trip_witness :
  readAsciiMode (fun _ => None) = true /\
  readAsciiMode (setItem ASCII_KEY "true" (fun _ => None)) = false.
Proof.
  split.
  - destruct (ascii_preference_round_trip (fun _ => None) true (fun _ => "") JNull "")
      as (_ & Habsent & _).
    apply Habsent. reflexivity.
  - destruct (ascii_preference_round_trip (setItem ASCII_KEY "true" (fun _ => None))
                true (fun _ => "") JNull "true")
      as (_ & _ & Hother & _).
    apply Hother; [reflexivity | discriminate].
Defined.

(** X21.  Save then load: when [JSON.parse] gives back the value that
    [JSON.stringify] wrote and the written text is not empty, [loadState]
    after [saveState] returns the saved value, whatever else the store
    holds; a truthy value is then the state that startup takes. *)
Theorem saved_state_loads_back :
  forall (JSON_stringify : JSValue -> string) (parse : string -> Outcome JSValue)
         (state : JSValue) (store : Store) (t : Z),
    parse (JSON_stringify state) = Returns state ->
    JSON_stringify state <> "" ->
    let env := platformOver (saveState JSON_stringify state store) parse in
    loadState env = Returns state /\
    (truthy state = true -> initialState env t = Returns state).
Proof.
  intros JSON_stringify parse state store t Hparse Hne env.
  assert (Hget : getItem env LS_KEY = Returns (Some (JSON_stringify state))).
  { unfold env, platformOver, saveState, setItem. cbn [getItem].
    now rewrite String.eqb_refl. }
  assert (Hraw : notRaw (Some (JSON_stringify state)) = false).
  { cbn. destruct (JSON_stringify state); [congruence | reflexivity]. }
  assert (Hload : loadState env = Returns state).
  { unfold loadState, tryCatch. rewrite Hget, Hraw.
    change (JSON_parse env) with parse. now rewrite Hparse. }
  split; [exact Hload |].
  intros Ht. unfold initialState. now rewrite Hload, Ht.
Qed.

Lemma saved_state_loads_back_witness :
  let env := platformOver (saveState (fun _ => "{}") (JObj []) (fun _ => None))
                          (JSON_parse emptyObjectStore) in
  loadState env = Returns (JObj []) /\
  (truthy (JObj []) = true -> initialState env 0 = Returns (JObj [])).
Proof.
  apply (saved_state_loads_back (fun _ => "{}") (JSON_parse emptyObjectStore)
           (JObj []) (fun _ => None) 0).
  - reflexivity.
  - discriminate.
Defined.
